(** * CSV Quick Profiler (main.py): a shallow embedding and its properties

    The development follows [main.py]:
    - [inferir_tipo_dado]  (lines 19-36), over a model of the host's
      [int], [float] and [str.strip];
    - [analisar_csv]       (lines 38-70), the ingestion loop over a dict of
      per-column value lists;
    - [imprimir_relatorio] (lines 72-118), the per-column report, over a
      model of [collections.Counter] and its [most_common].

    Text.  A Python [str] is a sequence of code points.  Here a character is
    an [ascii], read as a code point in U+0000..U+00FF, and a [str] is a
    [string]; text with code points above U+00FF is outside the model. *)

From Stdlib Require Import ZArith NArith Floats Uint63 String Ascii List Lia Bool.
From Stdlib Require Import Sorting.Sorted Numbers.DecimalString.
From stdpp Require Import base gmap strings list sorting.

Local Open Scope char_scope.
Local Open Scope bool_scope.

(** ** Character classes of the host (CPython's pyctype and unicodectype) *)

Definition cod (c : ascii) : N := N_of_ascii c.

Definition entre (lo hi : N) (c : ascii) : bool :=
  ((lo <=? cod c) && (cod c <=? hi))%N.

(** [Py_ISSPACE]: tab, LF, VT, FF, CR and the space. *)
Definition Py_ISSPACE (c : ascii) : bool :=
  entre 9 13 c || (cod c =? 32)%N.

Definition Py_ISDIGIT (c : ascii) : bool := entre 48 57 c.

(** [Py_UNICODE_ISSPACE] on U+0000..U+00FF: the six above, the separators
    U+001C..U+001F, NEL (U+0085) and the no-break space (U+00A0). *)
Definition Py_UNICODE_ISSPACE (c : ascii) : bool :=
  entre 9 13 c || entre 28 32 c || (cod c =? 133)%N || (cod c =? 160)%N.

Definition Py_TOLOWER (c : ascii) : ascii :=
  if entre 65 90 c then ascii_of_N (cod c + 32) else c.

Definition e_sublinhado (c : ascii) : bool := Ascii.eqb c "_".

(** ** [str.strip()] with no argument *)

Fixpoint lstrip (l : list ascii) : list ascii :=
  match l with
  | c :: r => if Py_UNICODE_ISSPACE c then lstrip r else l
  | [] => []
  end.

Definition rstrip (l : list ascii) : list ascii := rev (lstrip (rev l)).

Definition strip (s : string) : string :=
  string_of_list_ascii (rstrip (lstrip (list_ascii_of_string s))).

(** ** Shared scanning steps of the host's number parsers *)

Fixpoint skip_space (p : list ascii) : list ascii :=
  match p with
  | c :: r => if Py_ISSPACE c then skip_space r else p
  | [] => []
  end.

Definition skip_sign (p : list ascii) : list ascii :=
  match p with
  | c :: r => if Ascii.eqb c "+" || Ascii.eqb c "-" then r else p
  | [] => []
  end.

Fixpoint skip_zeros (p : list ascii) : list ascii :=
  match p with
  | c :: r => if Ascii.eqb c "0" then skip_zeros r else p
  | [] => []
  end.

Fixpoint skip_digits (p : list ascii) : list ascii :=
  match p with
  | c :: r => if Py_ISDIGIT c then skip_digits r else p
  | [] => []
  end.

(** [_PyUnicode_TransformDecimalAndSpaceToASCII]: an all-ASCII string is
    returned as it is; otherwise every Unicode space becomes a blank and the
    copy is cut, with a question mark, at the first character that is
    neither ASCII, nor a space, nor a decimal digit.  No code point in
    U+007F..U+00FF is a decimal digit. *)
Fixpoint transform_loop (u : list ascii) : list ascii :=
  match u with
  | [] => []
  | ch :: r =>
      if (cod ch <? 127)%N then ch :: transform_loop r
      else if Py_UNICODE_ISSPACE ch then " " :: transform_loop r
      else ["?"]
  end.

Definition TransformDecimalAndSpaceToASCII (u : list ascii) : list ascii :=
  if forallb (fun ch => (cod ch <? 128)%N) u then u else transform_loop u.

(** ** [float(str)]: [PyFloat_FromString]

    Only whether the call returns or raises [ValueError] matters to the
    program (line 31 discards the value), so the parsers are modelled as
    the position at which they stop.  A C pointer into the buffer is the
    suffix that starts there; two pointers into one buffer are equal when
    the suffixes have the same length.  A NUL inside the text is an
    ordinary character that no scanner accepts. *)

(** [_Py_dg_strtod]: sign, digits with an optional point, optional
    exponent.  On a parse error the end pointer is the start [s00]. *)
Definition dg_strtod (s00 : list ascii) : list ascii :=
  let s := skip_sign s00 in
  let s1 := s in
  let s := skip_zeros s in
  let lz := negb (Nat.eqb (length s) (length s1)) in
  let s1 := s in
  let s := skip_digits s in
  let ndigits := length s1 - length s in
  let '(s, ndigits, lz) :=
    match s with
    | "." :: s =>
        let '(s, lz) :=
          if Nat.eqb ndigits 0
          then let s1 := s in
               let s := skip_zeros s in
               (s, lz || negb (Nat.eqb (length s) (length s1)))
          else (s, lz) in
        let s1 := s in
        let s := skip_digits s in
        (s, ndigits + (length s1 - length s), lz)
    | _ => (s, ndigits, lz)
    end in
  if Nat.eqb ndigits 0 && negb lz then s00
  else
    match s with
    | c :: s' =>
        if Ascii.eqb c "e" || Ascii.eqb c "E" then
          let s00 := s in
          let s := skip_sign s' in
          let s1 := s in
          let s := skip_zeros s in
          let lz := negb (Nat.eqb (length s) (length s1)) in
          let s1 := s in
          let s := skip_digits s in
          if Nat.eqb (length s) (length s1) && negb lz then s00 else s
        else s
    | [] => s
    end.

Fixpoint case_insensitive_match (s t : list ascii) : bool :=
  match t with
  | [] => true
  | ct :: t' =>
      match s with
      | cs :: s' =>
          if Ascii.eqb (Py_TOLOWER cs) ct then case_insensitive_match s' t'
          else false
      | [] => false
      end
  end.

(** [_Py_parse_inf_or_nan]: the end pointer is the start when neither
    keyword is there. *)
Definition parse_inf_or_nan (p : list ascii) : list ascii :=
  let s := skip_sign p in
  if case_insensitive_match s (list_ascii_of_string "inf") then
    let s := drop 3 s in
    if case_insensitive_match s (list_ascii_of_string "inity")
    then drop 5 s else s
  else if case_insensitive_match s (list_ascii_of_string "nan") then drop 3 s
  else p.

Definition ascii_strtod (nptr : list ascii) : list ascii :=
  let fim := dg_strtod nptr in
  if Nat.eqb (length fim) (length nptr) then parse_inf_or_nan nptr else fim.

(** Number of trailing blanks given up by
    [while (s < last - 1 && Py_ISSPACE(last[-1])) last--]. *)
Definition cauda_em_branco (s : list ascii) : nat :=
  Nat.min (length s - length (skip_space (rev s))) (length s - 1).

(** [float_from_string_inner]: [true] when a float is returned. *)
Definition float_from_string_inner (s : list ascii) : bool :=
  let s := skip_space s in
  match s with
  | [] => false
  | _ :: _ =>
      let last := cauda_em_branco s in
      let fim := ascii_strtod s in
      if Nat.eqb (length fim) (length s) then false
      else Nat.eqb (length fim) last
  end.

(** The copy loop of [_Py_string_to_number_with_underscores]: [None] is its
    [goto error]. *)
Fixpoint sem_sublinhados (prev : ascii) (p : list ascii) : option (list ascii) :=
  match p with
  | [] => if e_sublinhado prev then None else Some []
  | c :: r =>
      if e_sublinhado c then
        if Py_ISDIGIT prev then sem_sublinhados c r else None
      else if e_sublinhado prev && negb (Py_ISDIGIT c) then None
      else option_map (cons c) (sem_sublinhados c r)
  end.

Definition string_to_number_with_underscores
    (s : list ascii) (innerfunc : list ascii -> bool) : bool :=
  if existsb e_sublinhado s then
    match sem_sublinhados zero s with
    | Some dup => innerfunc dup
    | None => false
    end
  else innerfunc s.

(** [float(valor)] returns (rather than raising [ValueError]). *)
Definition float_aceita (valor : string) : bool :=
  string_to_number_with_underscores
    (TransformDecimalAndSpaceToASCII (list_ascii_of_string valor))
    float_from_string_inner.

(** ** [int(str)]: [PyLong_FromUnicodeObject], base 10 *)

(** The validating loop of [long_from_string_base]: [None] on a doubled
    underscore, otherwise the digit count, the last character read and the
    position of the first character that is neither digit nor underscore. *)
Fixpoint long_scan (prev : ascii) (digits : nat) (p : list ascii)
  : option (nat * ascii * list ascii) :=
  match p with
  | c :: r =>
      if Py_ISDIGIT c || e_sublinhado c then
        if e_sublinhado c then
          if e_sublinhado prev then None else long_scan c digits r
        else long_scan c (S digits) r
      else Some (digits, prev, p)
  | [] => Some (digits, prev, [])
  end.

(** [_PY_LONG_MAX_STR_DIGITS_THRESHOLD] *)
Definition MAX_STR_DIGITS_THRESHOLD : nat := 640.

Local Close Scope char_scope.
Local Open Scope string_scope.

(** ** Exceptions and results

    A call either returns a value or raises; [let*] sequences calls and
    lets an exception escape, as statements do. *)

Inductive excecao : Set :=
  | StopIteration
  | FileNotFoundError
  | KeyError
  | IndexError
  | ZeroDivisionError
  | IsADirectoryError
  | PermissionError
  | UnicodeDecodeError
  | CsvError.                (* csv.Error *)

Inductive resultado (A : Type) : Type :=
  | Retorna (a : A)
  | Levanta (e : excecao).

Arguments Retorna {A} a.
Arguments Levanta {A} e.

Definition liga {A B} (m : resultado A) (k : A -> resultado B) : resultado B :=
  match m with
  | Retorna a => k a
  | Levanta e => Levanta e
  end.

Notation "'let*' x ':=' m 'in' k" := (liga m (fun x => k))
  (at level 10, x pattern, m at level 100, k at level 200).

(** A comprehension or [for] loop whose body may raise. *)
Fixpoint para_cada {A B} (f : A -> resultado B) (l : list A)
  : resultado (list B) :=
  match l with
  | [] => Retorna []
  | x :: r =>
      let* y := f x in
      let* ys := para_cada f r in
      Retorna (y :: ys)
  end.

(** [next(it)] on an iterator with the items [it] still to come. *)
Definition next {A} (it : list A) : resultado (A * list A) :=
  match it with
  | [] => Levanta StopIteration
  | x :: r => Retorna (x, r)
  end.

(** ** [collections.Counter]

    A [Counter] is a dict, and a dict keeps its keys in insertion order:
    an association list, a key counted again keeping its place. *)

Section Contador.
Context {K : Type} `{EqDecision K}.

(** [self[elem] = self.get(elem, 0) + 1] *)
Fixpoint conta (elem : K) (c : list (K * nat)) : list (K * nat) :=
  match c with
  | [] => [(elem, 1)]
  | (k, n) :: r =>
      if decide (k = elem) then (k, S n) :: r else (k, n) :: conta elem r
  end.

Definition Counter (iteravel : list K) : list (K * nat) :=
  fold_left (fun c elem => conta elem c) iteravel [].

(** [sorted(items, key=itemgetter(1), reverse=True)]: the sort is stable,
    items with equal counts keep their order. *)
Fixpoint insere (x : K * nat) (l : list (K * nat)) : list (K * nat) :=
  match l with
  | [] => [x]
  | y :: r => if Nat.leb (snd y) (snd x) then x :: y :: r else y :: insere x r
  end.

Definition ordena (l : list (K * nat)) : list (K * nat) :=
  fold_right insere [] l.

(** [most_common(n)] is [heapq.nlargest(n, items, key=itemgetter(1))],
    which the library defines as [sorted(items, key=..., reverse=True)[:n]]. *)
Definition most_common (n : nat) (c : list (K * nat)) : list (K * nat) :=
  take n (ordena c).

(** [sum(c.values())] *)
Definition soma_valores (c : list (K * nat)) : nat :=
  fold_right (fun kv acc => snd kv + acc) 0 c.

(** Position of the first occurrence of [v] in [l] ([length l] if none). *)
Fixpoint indice (v : K) (l : list K) : nat :=
  match l with
  | [] => 0
  | x :: r => if decide (x = v) then 0 else S (indice v r)
  end.

(** Number of occurrences of [v] in [l]. *)
Definition ocorrencias (v : K) (l : list K) : nat :=
  length (List.filter (fun x => bool_decide (x = v)) l).

(** The distinct elements of [l], in order of first occurrence. *)
Definition primeiras (l : list K) : list K :=
  fold_left (fun ks k => if decide (k ∈ ks) then ks else (ks ++ [k])%list) l [].

(** The documented order of a ranking: higher count first, and among equal
    counts the value seen first. *)
Definition antes (l : list K) (a b : K * nat) : Prop :=
  snd b < snd a \/ (snd a = snd b /\ indice (fst a) l < indice (fst b) l).

End Contador.

(** ** Percentages (lines 112-113)

    [contagem / n * 100] in binary64.  The quotient of two Python ints is
    the correctly rounded quotient, which is the IEEE quotient of the two
    conversions as long as both are below 2^53. *)

Definition float_de_nat (n : nat) : float :=
  PrimFloat.of_uint63 (Uint63.of_Z (Z.of_nat n)).

Definition truediv (a b : nat) : resultado float :=
  if Nat.eqb b 0 then Levanta ZeroDivisionError
  else Retorna (PrimFloat.div (float_de_nat a) (float_de_nat b)).

(** [m * 2^e * 10] rounded to the nearest integer, ties to even. *)
Definition decimos (m : positive) (e : Z) : Z :=
  let num := (Z.pos m * 10)%Z in
  if (0 <=? e)%Z then (num * 2 ^ e)%Z
  else
    let den := (2 ^ (- e))%Z in
    let q := (num / den)%Z in
    let r := (num mod den)%Z in
    if (den <? 2 * r)%Z then (q + 1)%Z
    else if (2 * r =? den)%Z && Z.odd q then (q + 1)%Z
    else q.

Definition decimal_de_Z (z : Z) : string :=
  NilEmpty.string_of_uint (N.to_uint (Z.to_N z)).

(** [f"{x:.1f}"]: the exact value of the float, correctly rounded to one
    decimal place. *)
Definition formata_1f (x : float) : string :=
  let sinal (s : bool) : string := if s then "-" else EmptyString in
  match Prim2SF x with
  | S754_zero s => String.append (sinal s) "0.0"
  | S754_infinity s => String.append (sinal s) "inf"
  | S754_nan => "nan"
  | S754_finite s m e =>
      let d := decimos m e in
      String.append (sinal s)
        (String.append (decimal_de_Z (d / 10))
           (String.append "." (decimal_de_Z (d mod 10))))
  end.

(** [str.upper()] on the ASCII letters (it is applied to type labels only). *)
Definition upper (s : string) : string :=
  string_of_list_ascii
    (map (fun c => if entre 97 122 c then ascii_of_N (cod c - 32) else c)
       (list_ascii_of_string s)).

(** ** What the program prints *)

(** One column's block of the report: either the all-empty notice of line 91
    or the statistics of lines 99-113. *)
Inductive bloco : Type :=
  | TodosVazios
  | Estatisticas
      (nao_vazios total vazios unicos : nat)
      (tipo_predominante : string)
      (mais_comuns : list (string * nat * string)).

(** The report of [imprimir_relatorio]: heading, totals and one block per
    entry of the header, in header order.  (The heading shows the base name
    of [nome_arquivo].) *)
Record relatorio : Type := Relatorio {
  nome_arquivo : string;
  total_linhas : nat;
  total_colunas : nat;
  colunas : list (string * bloco)
}.

Inductive impressao : Type :=
  | ErroSemCabecalho (caminho : string)        (* line 48 *)
  | ErroNaoEncontrado (caminho : string)       (* line 68 *)
  | ErroInesperado (e : excecao)               (* line 70 *)
  | Analise (r : relatorio).                   (* lines 74-118 *)

(** The four labels [inferir_tipo_dado] can return. *)
Inductive tipo_dado : Set := Vazio | Int | Float | String_.

#[global] Instance tipo_dado_eq_dec : EqDecision tipo_dado.
Proof. solve_decision. Defined.

(** The label each branch returns. *)
Definition rotulo (t : tipo_dado) : string :=
  match t with
  | Vazio => "vazio"
  | Int => "int"
  | Float => "float"
  | String_ => "string"
  end.

Section Analisador.

(** The interpreter's [sys.get_int_max_str_digits()]: 4300 unless
    configured, 0 for no limit (and on interpreters that predate it). *)
Variable max_str_digits : nat.

Definition long_from_string_base (str : list ascii) : bool :=
  match str with
  | c :: _ =>
      if e_sublinhado c then false
      else
        match long_scan zero 0 str with
        | None => false
        | Some (digits, prev, fim) =>
            if e_sublinhado prev then false
            else if Nat.eqb (length fim) (length str) then false
            else
              match skip_space fim with
              | _ :: _ => false
              | [] =>
                  negb (Nat.ltb MAX_STR_DIGITS_THRESHOLD digits
                        && Nat.ltb 0 max_str_digits
                        && Nat.ltb max_str_digits digits)
              end
        end
  | [] => false
  end.

Definition PyLong_FromString (str : list ascii) : bool :=
  long_from_string_base (skip_sign (skip_space str)).

(** [int(valor)] returns (rather than raising [ValueError]). *)
Definition int_aceita (valor : string) : bool :=
  PyLong_FromString
    (TransformDecimalAndSpaceToASCII (list_ascii_of_string valor)).

(** ** [inferir_tipo_dado] (lines 19-36) *)

Definition inferir_tipo_dado (valor : string) : tipo_dado :=
  if String.eqb valor EmptyString then Vazio
  else if int_aceita valor then Int
  else if float_aceita valor then Float
  else String_.

(** ** [imprimir_relatorio] (lines 72-118) *)

(** [[v for v in valores_coluna if v]] *)
Definition valores_nao_vazios (valores_coluna : list string) : list string :=
  List.filter (fun v => negb (String.eqb v EmptyString)) valores_coluna.

Definition total_valores (valores_coluna : list string) : nat :=
  length valores_coluna.

Definition valores_vazios (valores_coluna : list string) : nat :=
  total_valores valores_coluna - length (valores_nao_vazios valores_coluna).

Definition contagem_unicos (valores_coluna : list string) : nat :=
  size (list_to_set (valores_nao_vazios valores_coluna) : gset string).

Definition tipos_inferidos (valores_coluna : list string)
  : list (tipo_dado * nat) :=
  Counter (map inferir_tipo_dado (valores_nao_vazios valores_coluna)).

Definition contagem_valores (valores_coluna : list string)
  : list (string * nat) :=
  Counter (valores_nao_vazios valores_coluna).

(** [tipos_inferidos.most_common(1)[0][0]] *)
Definition tipo_predominante (valores_coluna : list string)
  : resultado tipo_dado :=
  match most_common 1 (tipos_inferidos valores_coluna) with
  | [] => Levanta IndexError
  | (tipo, _) :: _ => Retorna tipo
  end.

(** The loop of lines 111-113: value, count and formatted share. *)
Definition mais_comuns (valores_coluna : list string)
  : resultado (list (string * nat * string)) :=
  para_cada
    (fun '(valor, contagem) =>
       let* q := truediv contagem (length (valores_nao_vazios valores_coluna)) in
       let percentual := PrimFloat.mul q (float_de_nat 100) in
       Retorna (valor, contagem, formata_1f percentual))
    (most_common 5 (contagem_valores valores_coluna)).

(** The body of the loop of line 82 for one column. *)
Definition bloco_coluna (valores_coluna : list string) : resultado bloco :=
  match valores_nao_vazios valores_coluna with
  | [] => Retorna TodosVazios
  | _ :: _ =>
      let* tipo := tipo_predominante valores_coluna in
      let* linhas := mais_comuns valores_coluna in
      Retorna (Estatisticas
                 (length (valores_nao_vazios valores_coluna))
                 (total_valores valores_coluna)
                 (valores_vazios valores_coluna)
                 (contagem_unicos valores_coluna)
                 (upper (rotulo tipo))
                 linhas)
  end.

Definition imprimir_relatorio (nome_arquivo : string) (total_linhas : nat)
    (cabecalho : list string) (dados : gmap string (list string))
  : resultado relatorio :=
  let* blocos :=
    para_cada
      (fun coluna =>
         match dados !! coluna with
         | None => Levanta KeyError
         | Some valores_coluna =>
             let* b := bloco_coluna valores_coluna in
             Retorna (coluna, b)
         end)
      cabecalho in
  Retorna (Relatorio nome_arquivo total_linhas (length cabecalho) blocos).

(** ** [analisar_csv] (lines 38-70)

    The file is what [open] and [csv.reader] make of it: [None] when the
    path does not exist, otherwise the rows, each a list of fields. *)

(** [{col: [] for col in cabecalho}] *)
Definition dados_iniciais (cabecalho : list string)
  : gmap string (list string) :=
  fold_left (fun d col => <[col := []]> d) cabecalho ∅.

(** [dados_colunas[cabecalho[i]].append(valor.strip())] *)
Definition acrescenta (cabecalho : list string)
    (dados_colunas : gmap string (list string)) (i : nat) (valor : string)
  : resultado (gmap string (list string)) :=
  match cabecalho !! i with
  | None => Levanta IndexError
  | Some col =>
      match dados_colunas !! col with
      | None => Levanta KeyError
      | Some l => Retorna (<[col := (l ++ [strip valor])%list]> dados_colunas)
      end
  end.

(** [for i, valor in enumerate(linha)], from index [i] on. *)
Fixpoint percorre_linha (cabecalho : list string) (i : nat)
    (linha : list string) (dados_colunas : gmap string (list string))
  : resultado (gmap string (list string)) :=
  match linha with
  | [] => Retorna dados_colunas
  | valor :: resto =>
      let* d := acrescenta cabecalho dados_colunas i valor in
      percorre_linha cabecalho (S i) resto d
  end.

(** The test of line 58. *)
Definition malformada (num_colunas : nat) (linha : list string) : bool :=
  negb (Nat.eqb (length linha) num_colunas).

(** One turn of the loop of line 56 on [(contagem_linhas, dados_colunas)]. *)
Definition processa_linha (cabecalho : list string)
    (estado : nat * gmap string (list string)) (linha : list string)
  : resultado (nat * gmap string (list string)) :=
  let '(contagem_linhas, dados_colunas) := estado in
  let contagem_linhas := S contagem_linhas in
  if malformada (length cabecalho) linha
  then Retorna (contagem_linhas, dados_colunas)
  else
    let* d := percorre_linha cabecalho 0 linha dados_colunas in
    Retorna (contagem_linhas, d).

Fixpoint processa_linhas (cabecalho : list string)
    (estado : nat * gmap string (list string)) (leitor : list (list string))
  : resultado (nat * gmap string (list string)) :=
  match leitor with
  | [] => Retorna estado
  | linha :: resto =>
      let* e := processa_linha cabecalho estado linha in
      processa_linhas cabecalho e resto
  end.

(** Lines 41-65, inside the outer [try]. *)
Definition corpo_analisar_csv (caminho_arquivo : string)
    (arquivo : option (list (list string)))
  : resultado (list impressao) :=
  match arquivo with
  | None => Levanta FileNotFoundError
  | Some leitor =>
      match next leitor with
      | Levanta StopIteration => Retorna [ErroSemCabecalho caminho_arquivo]
      | Levanta e => Levanta e
      | Retorna (cabecalho, leitor) =>
          let* estado :=
            processa_linhas cabecalho (0, dados_iniciais cabecalho) leitor in
          let '(contagem_linhas, dados_colunas) := estado in
          let* r :=
            imprimir_relatorio caminho_arquivo contagem_linhas cabecalho
              dados_colunas in
          Retorna [Analise r]
      end
  end.

(** The whole function: what it prints and how it ends.  Both handlers of
    lines 67-70 print and fall through to a normal return. *)
Definition analisar_csv (caminho_arquivo : string)
    (arquivo : option (list (list string)))
  : list impressao * resultado unit :=
  match corpo_analisar_csv caminho_arquivo arquivo with
  | Retorna impresso => (impresso, Retorna tt)
  | Levanta FileNotFoundError =>
      ([ErroNaoEncontrado caminho_arquivo], Retorna tt)
  | Levanta e => ([ErroInesperado e], Retorna tt)
  end.

End Analisador.

(** ** [analisar_csv] with the failures of [open] and of the reader

    Above, the file is the rows it is read into.  In full, [open] (line 41)
    raises or gives a file, and the reader then yields rows until it raises:
    [StopIteration] at the end of the file, or what the decoding or the CSV
    parser raises on the way ([UnicodeDecodeError], [csv.Error]), at line 45
    for the header and at line 56 for the rows.  Writing to the standard
    output is taken to succeed. *)
Inductive arquivo_aberto : Type :=
  | AbrirLevanta (e : excecao)
  | Aberto (linhas : list (list string)) (fim : excecao).

(** [next(leitor)] on a reader with [linhas] to come before it raises
    [fim]. *)
Definition next_leitor (linhas : list (list string)) (fim : excecao)
  : resultado (list string * list (list string)) :=
  match linhas with
  | [] => Levanta fim
  | linha :: resto => Retorna (linha, resto)
  end.

(** The [for] of line 56 on such a reader: it ends on [StopIteration] and
    lets any other exception through. *)
Definition percorre_leitor (cabecalho : list string)
    (estado : nat * gmap string (list string))
    (linhas : list (list string)) (fim : excecao)
  : resultado (nat * gmap string (list string)) :=
  let* e := processa_linhas cabecalho estado linhas in
  match fim with
  | StopIteration => Retorna e
  | _ => Levanta fim
  end.

(** Lines 41-65, inside the outer [try]. *)
Definition corpo_analisar_csv_es (max_str_digits : nat)
    (caminho_arquivo : string) (arquivo : arquivo_aberto)
  : resultado (list impressao) :=
  match arquivo with
  | AbrirLevanta e => Levanta e
  | Aberto linhas fim =>
      match next_leitor linhas fim with
      | Levanta StopIteration => Retorna [ErroSemCabecalho caminho_arquivo]
      | Levanta e => Levanta e
      | Retorna (cabecalho, leitor) =>
          let* estado :=
            percorre_leitor cabecalho (0, dados_iniciais cabecalho)
              leitor fim in
          let '(contagem_linhas, dados_colunas) := estado in
          let* r :=
            imprimir_relatorio max_str_digits caminho_arquivo contagem_linhas
              cabecalho dados_colunas in
          Retorna [Analise r]
      end
  end.

(** The whole function, with the handlers of lines 67-70. *)
Definition analisar_csv_es (max_str_digits : nat)
    (caminho_arquivo : string) (arquivo : arquivo_aberto)
  : list impressao * resultado unit :=
  match corpo_analisar_csv_es max_str_digits caminho_arquivo arquivo with
  | Retorna impresso => (impresso, Retorna tt)
  | Levanta FileNotFoundError =>
      ([ErroNaoEncontrado caminho_arquivo], Retorna tt)
  | Levanta e => ([ErroInesperado e], Retorna tt)
  end.

(** The file of the model above as an outcome of [open] and of the
    reader. *)
Definition arquivo_lido (arquivo : option (list (list string)))
  : arquivo_aberto :=
  match arquivo with
  | None => AbrirLevanta FileNotFoundError
  | Some linhas => Aberto linhas StopIteration
  end.

(** ** The script's entry point (lines 121-134) *)

(** [str.lower()] on U+0000..U+00FF: the capitals are A to Z and U+00C0 to
    U+00DE without the multiplication sign, each 32 below its small letter. *)
Definition lower_char (c : ascii) : ascii :=
  if entre 65 90 c || (entre 192 222 c && negb (cod c =? 215)%N)
  then ascii_of_N (cod c + 32) else c.

Definition lower (s : string) : string :=
  string_of_list_ascii (map lower_char (list_ascii_of_string s)).

(** [s.endswith(sufixo)] *)
Definition endswith (s sufixo : string) : bool :=
  let l := list_ascii_of_string s in
  let f := list_ascii_of_string sufixo in
  Nat.leb (length f) (length l)
  && bool_decide (drop (length l - length f) l = f).

(** What the script prints: its own two messages and those of
    [analisar_csv]. *)
Inductive linha_principal : Type :=
  | Uso                                (* line 124 *)
  | ErroNaoCsv                         (* line 131 *)
  | DaAnalise (i : impressao).         (* line 134 *)

(** How the process ends: [sys.exit(status)], the end of the script, or an
    exception nobody caught. *)
Inductive termino : Type :=
  | Sai (status : nat)
  | Termina
  | NaoCapturada (e : excecao).

(** The block under [if __name__ == "__main__"], with [sistema] giving what
    [open] and the reader do at a path. *)
Definition principal (max_str_digits : nat)
    (sistema : string -> arquivo_aberto) (argv : list string)
  : list linha_principal * termino :=
  if negb (Nat.eqb (length argv) 2) then ([Uso], Sai 1)
  else
    match argv !! 1 with
    | None => ([], NaoCapturada IndexError)
    | Some caminho_do_arquivo =>
        if negb (endswith (lower caminho_do_arquivo) ".csv")
        then ([ErroNaoCsv], Sai 1)
        else
          let '(impresso, fim) :=
            analisar_csv_es max_str_digits caminho_do_arquivo
              (sistema caminho_do_arquivo) in
          (map DaAnalise impresso,
           match fim with
           | Retorna _ => Termina
           | Levanta e => NaoCapturada e
           end)
    end.

(** ** Vocabulary of the statements *)

(** The rows the loop of line 56 does not skip. *)
Definition bem_formadas (cabecalho : list string)
    (linhas : list (list string)) : list (list string) :=
  List.filter (fun linha => negb (malformada (length cabecalho) linha)) linhas.

(** The trimmed cells of [linha] at the positions where the header reads
    [col]. *)
Definition celulas (col : string) (cabecalho linha : list string)
  : list string :=
  map (fun p => strip (snd p))
    (List.filter (fun p => bool_decide (fst p = col)) (combine cabecalho linha)).

(** Those cells over all well-formed rows, in file order. *)
Definition coluna_lida (col : string) (cabecalho : list string)
    (linhas : list (list string)) : list string :=
  concat (map (celulas col cabecalho) (bem_formadas cabecalho linhas)).

Definition valor_ou {A} (padrao : A) (r : resultado A) : A :=
  match r with
  | Retorna a => a
  | Levanta _ => padrao
  end.

(** One line of the ranking, as lines 112-113 print it. *)
Definition linha_do_ranking (n : nat) (e : string * nat) : string * nat * string :=
  (fst e, snd e,
   formata_1f (PrimFloat.mul (PrimFloat.div (float_de_nat (snd e)) (float_de_nat n))
                 (float_de_nat 100))).

(** The block the report shows for a column holding [valores]. *)
Definition bloco_de (max_str_digits : nat) (valores : list string) : bloco :=
  valor_ou TodosVazios (bloco_coluna max_str_digits valores).

(** The tie-break rule in the words of the specification: among the types
    with the highest tally, the first one in the order
    Empty < Integer < Float < Text. *)
Definition predominante_por_precedencia (tipos : list tipo_dado)
  : option tipo_dado :=
  let ordem := [Vazio; Int; Float; String_] in
  let maximo := fold_right Nat.max 0 (map (fun t => ocorrencias t tipos) ordem) in
  List.find (fun t => Nat.eqb (ocorrencias t tipos) maximo) ordem.

(** Digits in groups joined by single underscores: what [int] takes after
    the sign. *)
Inductive grupos_de_digitos : list ascii -> Prop :=
  | gd_um c : Py_ISDIGIT c = true -> grupos_de_digitos [c]
  | gd_mais c r :
      Py_ISDIGIT c = true -> grupos_de_digitos r -> grupos_de_digitos (c :: r)
  | gd_sub c r :
      Py_ISDIGIT c = true -> grupos_de_digitos r ->
      grupos_de_digitos (c :: "_"%char :: r).

Definition e_sinal (sinal : list ascii) : Prop :=
  sinal = [] \/ sinal = ["+"%char] \/ sinal = ["-"%char].

(** An optional sign, then digits in groups joined by single underscores. *)
Definition literal_inteiro (s : string) : Prop :=
  exists sinal corpo,
    list_ascii_of_string s = (sinal ++ corpo)%list
    /\ e_sinal sinal /\ grupos_de_digitos corpo.

(** The format in the words of the specification: an optional sign, then
    digits only. *)
Definition so_digitos (s : string) : Prop :=
  exists sinal corpo,
    list_ascii_of_string s = (sinal ++ corpo)%list
    /\ e_sinal sinal /\ corpo <> []
    /\ Forall (fun c => Py_ISDIGIT c = true) corpo.

Definition n_digitos (l : list ascii) : nat :=
  length (List.filter Py_ISDIGIT l).

(** Number of digits in a string. *)
Definition digitos (s : string) : nat := n_digitos (list_ascii_of_string s).

(** The text with its ASCII capitals made small. *)
Definition minusculas (s : string) : string :=
  string_of_list_ascii (map Py_TOLOWER (list_ascii_of_string s)).

(** No Unicode space at either end. *)
Definition aparado (u : list ascii) : Prop :=
  match u with [] => True | c :: _ => Py_UNICODE_ISSPACE c = false end
  /\ match rev u with [] => True | c :: _ => Py_UNICODE_ISSPACE c = false end.

(** What [_PyUnicode_TransformDecimalAndSpaceToASCII] may make of a
    character it keeps. *)
Definition transformado (c c' : ascii) : Prop :=
  c' = c \/ (c' = " "%char /\ Py_UNICODE_ISSPACE c = true).

(** The digit limit of [int]: [d] digits pass when the limit is off, or [d]
    is within the threshold or within the limit. *)
Definition dentro_do_limite (max_str_digits d : nat) : Prop :=
  d <= MAX_STR_DIGITS_THRESHOLD \/ max_str_digits = 0 \/ d <= max_str_digits.

(** The digit limit of an interpreter left as installed. *)
Definition limite_padrao : nat := 4300.

(** The one message [analisar_csv] prints for a path and what is found
    there. *)
Definition mensagem_de (max_str_digits : nat) (caminho : string)
    (arquivo : option (list (list string))) : impressao :=
  match arquivo with
  | None => ErroNaoEncontrado caminho
  | Some [] => ErroSemCabecalho caminho
  | Some (cabecalho :: linhas) =>
      Analise
        (Relatorio caminho (length linhas) (length cabecalho)
           (map (fun col =>
                   (col, bloco_de max_str_digits
                           (coluna_lida col cabecalho linhas)))
              cabecalho))
  end.

(** The message of the handlers of lines 67-70 for an exception. *)
Definition mensagem_da_excecao (caminho : string) (e : excecao) : impressao :=
  match e with
  | FileNotFoundError => ErroNaoEncontrado caminho
  | _ => ErroInesperado e
  end.

(** The one message [analisar_csv] prints, given what [open] and the reader
    do. *)
Definition mensagem_es (max_str_digits : nat) (caminho : string)
    (arquivo : arquivo_aberto) : impressao :=
  match arquivo with
  | AbrirLevanta e => mensagem_da_excecao caminho e
  | Aberto linhas StopIteration =>
      mensagem_de max_str_digits caminho (Some linhas)
  | Aberto _ fim => mensagem_da_excecao caminho fim
  end.

(** The counts of a ranking as printed, summed. *)
Definition soma_do_ranking (mc : list (string * nat * string)) : nat :=
  fold_right (fun e acc => snd (fst e) + acc) 0 mc.

(** * Properties *)

(** ** Results *)

Lemma para_cada_retorna {A B} (f : A -> resultado B) (g : A -> B) (l : list A) :
  Forall (fun x => f x = Retorna (g x)) l ->
  para_cada f l = Retorna (map g l).
Proof.
  induction 1 as [|x r Hx _ IH]; simpl; [reflexivity|].
  now rewrite Hx, IH.
Qed.

(** ** Counters *)

Section FatosContador.
Context {K : Type} `{EqDecision K}.
Implicit Types (c : list (K * nat)) (l ks : list K) (k v : K).

Lemma Counter_snoc l k : Counter (l ++ [k]) = conta k (Counter l).
Proof. unfold Counter. now rewrite fold_left_app. Qed.

Lemma primeiras_snoc l k :
  primeiras (l ++ [k]) =
  if decide (k ∈ primeiras l) then primeiras l else (primeiras l ++ [k])%list.
Proof. unfold primeiras. now rewrite fold_left_app. Qed.

Lemma soma_valores_conta k c : soma_valores (conta k c) = S (soma_valores c).
Proof.
  induction c as [|[k' n] r IH]; simpl; [reflexivity|].
  destruct (decide (k' = k)); simpl; [reflexivity|].
  rewrite IH. lia.
Qed.

Lemma soma_valores_Counter l : soma_valores (Counter l) = length l.
Proof.
  induction l as [|k l IH] using rev_ind; [reflexivity|].
  rewrite Counter_snoc, soma_valores_conta, IH, length_app. simpl. lia.
Qed.

Lemma ocorrencias_cons v x l :
  ocorrencias v (x :: l) =
  if decide (x = v) then S (ocorrencias v l) else ocorrencias v l.
Proof.
  unfold ocorrencias. simpl. destruct (decide (x = v)) as [->|Hne].
  - rewrite bool_decide_eq_true_2 by reflexivity. reflexivity.
  - rewrite bool_decide_eq_false_2 by assumption. reflexivity.
Qed.

Lemma ocorrencias_snoc v l k :
  ocorrencias v (l ++ [k]) =
  if decide (k = v) then S (ocorrencias v l) else ocorrencias v l.
Proof.
  induction l as [|x l IH]; [apply ocorrencias_cons|].
  simpl. rewrite !ocorrencias_cons, IH.
  destruct (decide (x = v)), (decide (k = v)); reflexivity.
Qed.

Lemma ocorrencias_pos v l : 0 < ocorrencias v l <-> v ∈ l.
Proof.
  induction l as [|x l IH].
  - unfold ocorrencias. simpl. rewrite elem_of_nil. lia.
  - rewrite ocorrencias_cons, elem_of_cons.
    destruct (decide (x = v)) as [->|Hne]; [split; [auto|lia]|].
    rewrite IH. split; [auto|]. intros [Hx|Hin]; [congruence|assumption].
Qed.

Lemma indice_lt v l : v ∈ l -> indice v l < length l.
Proof.
  induction l as [|x l IH]; simpl; [now rewrite elem_of_nil|].
  rewrite elem_of_cons. intros Hin.
  destruct (decide (x = v)) as [->|Hne]; [lia|].
  destruct Hin as [Hx|Hin]; [congruence|]. specialize (IH Hin). lia.
Qed.

Lemma indice_app_dentro v l l' : v ∈ l -> indice v (l ++ l') = indice v l.
Proof.
  induction l as [|x l IH]; simpl; [now rewrite elem_of_nil|].
  rewrite elem_of_cons. intros Hin.
  destruct (decide (x = v)) as [->|Hne]; [reflexivity|].
  destruct Hin as [Hx|Hin]; [congruence|]. now rewrite IH.
Qed.

Lemma indice_snoc_novo v l : v ∉ l -> indice v (l ++ [v]) = length l.
Proof.
  induction l as [|x l IH]; simpl.
  - intros _. destruct (decide (v = v)); [reflexivity|contradiction].
  - rewrite not_elem_of_cons. intros [Hne Hnin].
    destruct (decide (x = v)) as [->|_]; [contradiction|].
    now rewrite IH.
Qed.

Lemma elem_of_primeiras k l : k ∈ primeiras l <-> k ∈ l.
Proof.
  induction l as [|x l IH] using rev_ind; [reflexivity|].
  rewrite primeiras_snoc, elem_of_app, list_elem_of_singleton, <- IH.
  destruct (decide (x ∈ primeiras l)) as [Hin|Hnin].
  - split; [auto|]. intros [Hk| ->]; assumption.
  - now rewrite elem_of_app, list_elem_of_singleton.
Qed.

Lemma NoDup_primeiras l : NoDup (primeiras l).
Proof.
  induction l as [|x l IH] using rev_ind; [constructor|].
  rewrite primeiras_snoc.
  destruct (decide (x ∈ primeiras l)) as [Hin|Hnin]; [assumption|].
  apply NoDup_app. split; [assumption|]. split; [|apply NoDup_singleton].
  intros y Hy Hy'. apply list_elem_of_singleton in Hy'. now subst.
Qed.

(** The distinct values come in increasing position of first occurrence. *)
Lemma primeiras_ordenadas l :
  StronglySorted (fun a b => indice a l < indice b l) (primeiras l).
Proof.
  induction l as [|x l IH] using rev_ind; [constructor|].
  assert (Hmono : StronglySorted
            (fun a b => indice a (l ++ [x]) < indice b (l ++ [x]))
            (primeiras l)).
  { clear -IH.
    assert (Hsub : Forall (fun a => a ∈ l) (primeiras l))
      by (apply Forall_forall; intros a; apply elem_of_primeiras).
    induction IH as [|a r _ IHr Hfa]; [constructor|].
    inversion Hsub as [|? ? Ha Hr]; subst.
    constructor; [now apply IHr|].
    apply Forall_forall. intros b Hb.
    rewrite Forall_forall in Hfa, Hr.
    rewrite !indice_app_dentro by auto. now apply Hfa. }
  rewrite primeiras_snoc.
  destruct (decide (x ∈ primeiras l)) as [Hin|Hnin]; [assumption|].
  apply StronglySorted_app. split; [|split; [assumption|repeat constructor]].
  intros a b Ha Hb. apply list_elem_of_singleton in Hb. subst b.
  apply (proj1 (elem_of_primeiras _ _)) in Ha.
  rewrite elem_of_primeiras in Hnin.
  rewrite (indice_app_dentro a l [x] Ha), (indice_snoc_novo x l Hnin).
  now apply indice_lt.
Qed.

Lemma conta_fora k (g : K -> K * nat) ks :
  (forall a, fst (g a) = a) -> k ∉ ks ->
  conta k (map g ks) = (map g ks ++ [(k, 1)])%list.
Proof.
  intros Hg. induction ks as [|a ks IH]; simpl; [reflexivity|].
  rewrite not_elem_of_cons. intros [Hne Hnin].
  specialize (Hg a). destruct (g a) as [a' n] eqn:Ega. simpl in Hg. subst a'.
  destruct (decide (a = k)) as [->|_]; [contradiction|].
  now rewrite IH.
Qed.

Lemma conta_dentro k (f : K -> nat) ks :
  NoDup ks -> k ∈ ks ->
  conta k (map (fun a => (a, f a)) ks) =
  map (fun a => (a, if decide (a = k) then S (f a) else f a)) ks.
Proof.
  induction 1 as [|a ks Hnin Hnd IH]; [now rewrite elem_of_nil|].
  rewrite elem_of_cons. intros Hin. simpl.
  destruct (decide (a = k)) as [->|Hne].
  - f_equal. apply map_ext_in. intros b Hb.
    destruct (decide (b = k)) as [->|_]; [|reflexivity].
    apply list_elem_of_In in Hb. contradiction.
  - destruct Hin as [Hk|Hin]; [congruence|]. now rewrite IH.
Qed.

(** A counter lists the distinct elements in order of first occurrence,
    each with its number of occurrences. *)
Lemma Counter_forma l :
  Counter l = map (fun k => (k, ocorrencias k l)) (primeiras l).
Proof.
  induction l as [|x l IH] using rev_ind; [reflexivity|].
  rewrite Counter_snoc, IH, primeiras_snoc.
  destruct (decide (x ∈ primeiras l)) as [Hin|Hnin].
  - rewrite conta_dentro by (auto using NoDup_primeiras).
    apply map_ext. intros a. rewrite ocorrencias_snoc.
    destruct (decide (a = x)) as [->|Hne].
    + destruct (decide (x = x)); [reflexivity|contradiction].
    + destruct (decide (x = a)); [congruence|reflexivity].
  - rewrite conta_fora by auto. rewrite map_app. simpl. f_equal.
    + apply map_ext_in. intros a Ha. rewrite ocorrencias_snoc.
      destruct (decide (x = a)) as [->|_]; [|reflexivity].
      apply list_elem_of_In in Ha. contradiction.
    + rewrite ocorrencias_snoc.
      destruct (decide (x = x)); [|contradiction].
      assert (Hz : ocorrencias x l = 0).
      { destruct (ocorrencias x l) eqn:E; [reflexivity|].
        exfalso. apply Hnin, elem_of_primeiras, ocorrencias_pos. lia. }
      now rewrite Hz.
Qed.

Lemma elem_of_insere (x z : K * nat) c : z ∈ insere x c <-> z = x \/ z ∈ c.
Proof.
  induction c as [|y r IH]; simpl.
  - rewrite list_elem_of_singleton, elem_of_nil. tauto.
  - destruct (Nat.leb (snd y) (snd x)).
    + now rewrite elem_of_cons.
    + rewrite !elem_of_cons, IH. tauto.
Qed.

Lemma elem_of_ordena (z : K * nat) c : z ∈ ordena c <-> z ∈ c.
Proof.
  induction c as [|x r IH]; simpl; [reflexivity|].
  now rewrite elem_of_insere, elem_of_cons, IH.
Qed.

Lemma length_insere (x : K * nat) c : length (insere x c) = S (length c).
Proof.
  induction c as [|y r IH]; simpl; [reflexivity|].
  destruct (Nat.leb (snd y) (snd x)); simpl; [reflexivity|now rewrite IH].
Qed.

Lemma length_ordena c : length (ordena c) = length c.
Proof.
  induction c as [|x r IH]; simpl; [reflexivity|].
  now rewrite length_insere, IH.
Qed.

(** Within a ranking, a later entry never has the larger count. *)
Lemma antes_contagem l (a b : K * nat) : antes l a b -> snd b <= snd a.
Proof. unfold antes. lia. Qed.

Lemma insere_antes l (x : K * nat) c :
  StronglySorted (antes l) c ->
  Forall (fun y => indice (fst x) l < indice (fst y) l) c ->
  StronglySorted (antes l) (insere x c).
Proof.
  induction 1 as [|y r Hr IH Hy]; intros Hx; simpl; [repeat constructor|].
  inversion Hx as [|? ? Hxy Hxr]; subst.
  destruct (Nat.leb (snd y) (snd x)) eqn:Hle.
  - apply Nat.leb_le in Hle. constructor; [now constructor|].
    constructor.
    + unfold antes. destruct (decide (snd y = snd x)); [right|left]; lia.
    + rewrite Forall_forall in Hy, Hxr. apply Forall_forall. intros z Hz.
      pose proof (antes_contagem _ _ _ (Hy z Hz)) as Hzy.
      specialize (Hxr z Hz). unfold antes.
      destruct (decide (snd z = snd x)); [right|left]; lia.
  - apply Nat.leb_gt in Hle. constructor; [now apply IH|].
    apply Forall_forall. intros z Hz. apply (proj1 (elem_of_insere _ _ _)) in Hz.
    destruct Hz as [->|Hz]; [left; assumption|].
    rewrite Forall_forall in Hy. now apply Hy.
Qed.

(** Sorting a list that is in order of first occurrence gives the ranking
    order: the sort is stable. *)
Lemma ordena_antes l c :
  StronglySorted (fun a b => indice (fst a) l < indice (fst b) l) c ->
  StronglySorted (antes l) (ordena c).
Proof.
  induction 1 as [|x r Hr IH Hx]; simpl; [constructor|].
  apply insere_antes; [assumption|].
  rewrite Forall_forall in Hx. apply Forall_forall.
  intros z Hz. apply (proj1 (elem_of_ordena _ _)) in Hz. now apply Hx.
Qed.

Lemma Counter_ordenado l :
  StronglySorted (fun a b => indice (fst a) l < indice (fst b) l) (Counter l).
Proof.
  rewrite Counter_forma.
  apply (StronglySorted_fmap (fun k => (k, ocorrencias k l))
           (fun a b => indice a l < indice b l)); [|apply primeiras_ordenadas].
  intros a b Hab. exact Hab.
Qed.

Lemma elem_of_Counter l k n :
  (k, n) ∈ Counter l <-> k ∈ l /\ n = ocorrencias k l.
Proof.
  rewrite Counter_forma, list_elem_of_fmap. split.
  - intros [a [Heq Ha]]. inversion Heq; subst.
    split; [now apply elem_of_primeiras|reflexivity].
  - intros [Hk ->]. exists k. split; [reflexivity|now apply elem_of_primeiras].
Qed.

Lemma length_Counter l : length (Counter l) = length (primeiras l).
Proof. now rewrite Counter_forma, length_map. Qed.

(** What [most_common n] of a counter is: a ranking of distinct values
    with their numbers of occurrences, in ranking order, that leaves out
    only values ranked after all it holds. *)
Lemma most_common_Counter l n :
  let r := most_common n (Counter l) in
  StronglySorted (antes l) r
  /\ (forall v m, (v, m) ∈ r -> v ∈ l /\ m = ocorrencias v l)
  /\ (forall v, v ∈ l -> (v, ocorrencias v l) ∉ r ->
        Forall (fun e => antes l e (v, ocorrencias v l)) r)
  /\ length r = Nat.min n (length (primeiras l)).
Proof.
  intros r. unfold r, most_common.
  pose proof (ordena_antes l _ (Counter_ordenado l)) as Hs.
  rewrite <- (take_drop n (ordena (Counter l))) in Hs.
  split; [now apply StronglySorted_app_1_l in Hs|].
  split; [|split].
  - intros v m Hin. apply elem_of_Counter, elem_of_ordena.
    exact (subseteq_take n _ _ Hin).
  - intros v Hv Hnin. apply Forall_forall. intros e He.
    eapply StronglySorted_app_1_elem_of; [exact Hs|exact He|].
    assert (Hin : (v, ocorrencias v l) ∈ ordena (Counter l))
      by (apply elem_of_ordena, elem_of_Counter; auto).
    rewrite <- (take_drop n (ordena (Counter l))), elem_of_app in Hin.
    destruct Hin as [Hin|Hin]; [contradiction|assumption].
  - rewrite length_take, length_ordena, length_Counter. lia.
Qed.

End FatosContador.

(** ** The ingestion loop *)

Section Ingestao.
Implicit Types (cabecalho linha : list string) (d : gmap string (list string)).

Lemma dados_iniciais_lookup cabecalho col :
  dados_iniciais cabecalho !! col =
  if decide (col ∈ cabecalho) then Some [] else None.
Proof.
  unfold dados_iniciais.
  assert (Hg : forall d,
    fold_left (fun d c => <[c := []]> d) cabecalho d !! col =
    if decide (col ∈ cabecalho) then Some [] else d !! col).
  { induction cabecalho as [|c r IH]; intros d; simpl.
    - destruct (decide (col ∈ [])) as [Hin|_]; [|reflexivity].
      now apply elem_of_nil in Hin.
    - rewrite IH. destruct (decide (col ∈ r)) as [Hin|Hnin].
      + rewrite decide_True by (now right). reflexivity.
      + destruct (decide (c = col)) as [->|Hne].
        * rewrite decide_True by (now left). apply lookup_insert_eq.
        * rewrite decide_False, lookup_insert_ne by
            (rewrite ?elem_of_cons; intuition congruence).
          reflexivity. }
  rewrite Hg. destruct (decide (col ∈ cabecalho)); [reflexivity|].
  apply lookup_empty.
Qed.

Lemma celulas_cons col c cabecalho valor linha :
  celulas col (c :: cabecalho) (valor :: linha) =
  if decide (c = col) then strip valor :: celulas col cabecalho linha
  else celulas col cabecalho linha.
Proof.
  unfold celulas. simpl. destruct (decide (c = col)) as [->|Hne].
  - rewrite bool_decide_eq_true_2 by reflexivity. reflexivity.
  - rewrite bool_decide_eq_false_2 by assumption. reflexivity.
Qed.

Lemma celulas_nil col cabecalho : celulas col cabecalho [] = [].
Proof. unfold celulas. now destruct cabecalho. Qed.

(** A row as long as the header gives a column one cell for each place the
    header names it. *)
Lemma length_celulas col cabecalho linha :
  length linha = length cabecalho ->
  length (celulas col cabecalho linha) = ocorrencias col cabecalho.
Proof.
  revert linha. induction cabecalho as [|c r IH]; intros [|valor linha] Hlen;
    try discriminate; [reflexivity|].
  rewrite celulas_cons, ocorrencias_cons.
  destruct (decide (c = col)); simpl; rewrite IH by (simpl in Hlen; lia);
    reflexivity.
Qed.

(** The inner loop never raises on the tail of a row no longer than what is
    left of the header, and appends to each column its cells. *)
Lemma percorre_linha_lookup cabecalho linha : forall i d,
  i + length linha <= length cabecalho ->
  (forall col, col ∈ cabecalho -> is_Some (d !! col)) ->
  exists d',
    percorre_linha cabecalho i linha d = Retorna d'
    /\ forall col,
         d' !! col =
         (fun l => (l ++ celulas col (drop i cabecalho) linha)%list) <$> d !! col.
Proof.
  induction linha as [|valor resto IH]; intros i d Hlen Hdom; simpl.
  - exists d. split; [reflexivity|]. intros col. rewrite celulas_nil.
    destruct (d !! col) as [l|]; simpl; [|reflexivity].
    now rewrite app_nil_r.
  - simpl in Hlen. unfold acrescenta.
    destruct (cabecalho !! i) as [c|] eqn:Hc;
      [|apply lookup_ge_None in Hc; lia].
    assert (Hin : c ∈ cabecalho) by (eapply list_elem_of_lookup_2; eauto).
    destruct (Hdom c Hin) as [l Hl]. rewrite Hl. simpl.
    destruct (IH (S i) (<[c := (l ++ [strip valor])%list]> d)) as [d' [Hrun Hd']].
    + lia.
    + intros col Hcol. destruct (decide (c = col)) as [->|Hne].
      * rewrite lookup_insert_eq. eauto.
      * rewrite lookup_insert_ne by assumption. auto.
    + exists d'. split; [assumption|]. intros col. rewrite Hd'.
      rewrite (drop_S _ _ _ Hc), celulas_cons.
      destruct (decide (c = col)) as [->|Hne].
      * rewrite lookup_insert_eq, Hl. simpl. now rewrite <- app_assoc.
      * now rewrite lookup_insert_ne by assumption.
Qed.

Lemma processa_linha_lookup cabecalho n d linha :
  (forall col, col ∈ cabecalho -> is_Some (d !! col)) ->
  exists d',
    processa_linha cabecalho (n, d) linha = Retorna (S n, d')
    /\ forall col,
         d' !! col =
         (fun l => (l ++ concat (map (celulas col cabecalho)
                                   (bem_formadas cabecalho [linha])))%list)
           <$> d !! col.
Proof.
  intros Hdom. unfold processa_linha, bem_formadas. simpl.
  destruct (malformada (length cabecalho) linha) eqn:Hm; simpl.
  - exists d. split; [reflexivity|]. intros col.
    destruct (d !! col); simpl; [|reflexivity]. now rewrite app_nil_r.
  - unfold malformada in Hm. apply negb_false_iff, Nat.eqb_eq in Hm.
    destruct (percorre_linha_lookup cabecalho linha 0 d) as [d' [Hrun Hd']];
      [lia|assumption|].
    rewrite Hrun. simpl. exists d'. split; [reflexivity|].
    intros col. rewrite Hd'. simpl. now rewrite app_nil_r.
Qed.

Lemma bem_formadas_cons cabecalho linha linhas :
  bem_formadas cabecalho (linha :: linhas) =
  (bem_formadas cabecalho [linha] ++ bem_formadas cabecalho linhas)%list.
Proof.
  unfold bem_formadas. simpl.
  now destruct (negb (malformada (length cabecalho) linha)).
Qed.

Lemma processa_linhas_lookup cabecalho linhas : forall n d,
  (forall col, col ∈ cabecalho -> is_Some (d !! col)) ->
  exists d',
    processa_linhas cabecalho (n, d) linhas = Retorna (n + length linhas, d')
    /\ forall col,
         d' !! col =
         (fun l => (l ++ coluna_lida col cabecalho linhas)%list) <$> d !! col.
Proof.
  induction linhas as [|linha resto IH]; intros n d Hdom;
    cbn [processa_linhas length].
  - exists d. split; [now rewrite Nat.add_0_r|]. intros col.
    destruct (d !! col); simpl; [|reflexivity].
    unfold coluna_lida. simpl. now rewrite app_nil_r.
  - destruct (processa_linha_lookup cabecalho n d linha Hdom) as [d1 [Hrun Hd1]].
    rewrite Hrun. cbn [liga].
    destruct (IH (S n) d1) as [d' [Hrun' Hd']].
    + intros col Hcol. rewrite Hd1. destruct (Hdom col Hcol) as [l ->].
      simpl. eauto.
    + exists d'. split; [rewrite Hrun'; do 2 f_equal; lia|].
      intros col. rewrite Hd', Hd1. unfold coluna_lida.
      rewrite (bem_formadas_cons cabecalho linha resto), map_app, concat_app.
      destruct (d !! col); simpl; [|reflexivity]. now rewrite <- app_assoc.
Qed.

(** The loop of lines 52-62 as a whole: it never raises, counts every row,
    and leaves under each header name the cells read for it. *)
Lemma ingestao cabecalho linhas :
  exists dados,
    processa_linhas cabecalho (0, dados_iniciais cabecalho) linhas =
      Retorna (length linhas, dados)
    /\ forall col,
         dados !! col =
         if decide (col ∈ cabecalho)
         then Some (coluna_lida col cabecalho linhas) else None.
Proof.
  destruct (processa_linhas_lookup cabecalho linhas 0 (dados_iniciais cabecalho))
    as [d [Hrun Hd]].
  - intros col Hcol. rewrite dados_iniciais_lookup, decide_True by assumption.
    eauto.
  - exists d. split; [assumption|]. intros col.
    rewrite Hd, dados_iniciais_lookup.
    now destruct (decide (col ∈ cabecalho)).
Qed.

Lemma length_coluna_lida col cabecalho linhas :
  length (coluna_lida col cabecalho linhas) =
  ocorrencias col cabecalho * length (bem_formadas cabecalho linhas).
Proof.
  unfold coluna_lida.
  assert (Hbf : Forall (fun linha => length linha = length cabecalho)
                  (bem_formadas cabecalho linhas)).
  { apply Forall_forall. intros linha Hin. unfold bem_formadas in Hin.
    apply list_elem_of_In, filter_In in Hin. destruct Hin as [_ Hm].
    unfold malformada in Hm. rewrite negb_involutive in Hm.
    now apply Nat.eqb_eq in Hm. }
  induction Hbf as [|linha r Hl _ IH]; simpl; [lia|].
  rewrite length_app, IH, length_celulas by assumption. lia.
Qed.

End Ingestao.

(** ** The report *)

Section FatosRelatorio.
Variable max_str_digits : nat.
Implicit Types (valores : list string).

Lemma primeiras_nao_vazia {K} `{EqDecision K} (x : K) (l : list K) :
  primeiras (x :: l) <> [].
Proof.
  intros Hnil. assert (Hin : x ∈ primeiras (x :: l))
    by (apply elem_of_primeiras; now left).
  rewrite Hnil in Hin. now apply elem_of_nil in Hin.
Qed.

Lemma most_common_nao_vazio {K} `{EqDecision K} n (x : K) (l : list K) :
  most_common (S n) (Counter (x :: l)) <> [].
Proof.
  intros Hnil. apply (f_equal length) in Hnil.
  destruct (most_common_Counter (x :: l) (S n)) as (_ & _ & _ & Hlen).
  rewrite Hlen in Hnil. pose proof (primeiras_nao_vazia x l) as Hp.
  destruct (primeiras (x :: l)); [contradiction|simpl in Hnil; lia].
Qed.

Lemma tipo_predominante_retorna valores :
  valores_nao_vazios valores <> [] ->
  exists tipo n,
    most_common 1 (tipos_inferidos max_str_digits valores) = [(tipo, n)]
    /\ tipo_predominante max_str_digits valores = Retorna tipo.
Proof.
  intros Hne. unfold tipo_predominante, tipos_inferidos.
  destruct (valores_nao_vazios valores) as [|v r]; [contradiction|].
  pose proof (most_common_nao_vazio 0 (inferir_tipo_dado max_str_digits v)
                (map (inferir_tipo_dado max_str_digits) r)) as Hmc.
  destruct (most_common_Counter (map (inferir_tipo_dado max_str_digits) (v :: r)) 1)
    as (_ & _ & _ & Hlen).
  simpl map in *.
  destruct (most_common 1 _) as [|[tipo n] [|? ?]]; [contradiction| |].
  - exists tipo, n. split; reflexivity.
  - cbn [length] in Hlen. lia.
Qed.

Lemma mais_comuns_retorna valores :
  valores_nao_vazios valores <> [] ->
  mais_comuns valores =
  Retorna (map (linha_do_ranking (length (valores_nao_vazios valores)))
             (most_common 5 (contagem_valores valores))).
Proof.
  intros Hne. unfold mais_comuns. apply para_cada_retorna.
  apply Forall_forall. intros [valor contagem] _. unfold truediv.
  destruct (valores_nao_vazios valores); [contradiction|]. reflexivity.
Qed.

Lemma bloco_coluna_retorna valores :
  exists b, bloco_coluna max_str_digits valores = Retorna b.
Proof.
  unfold bloco_coluna.
  destruct (valores_nao_vazios valores) as [|v r] eqn:Hnv; [eauto|].
  assert (Hne : valores_nao_vazios valores <> []) by (rewrite Hnv; discriminate).
  destruct (tipo_predominante_retorna valores Hne) as (tipo & n & _ & ->).
  rewrite (mais_comuns_retorna valores Hne). simpl. eauto.
Qed.

Lemma bloco_coluna_bloco_de valores :
  bloco_coluna max_str_digits valores = Retorna (bloco_de max_str_digits valores).
Proof.
  unfold bloco_de. destruct (bloco_coluna_retorna valores) as [b ->].
  reflexivity.
Qed.

Lemma imprimir_relatorio_retorna nome n cabecalho
    (dados : gmap string (list string)) (f : string -> list string) :
  (forall col, col ∈ cabecalho -> dados !! col = Some (f col)) ->
  imprimir_relatorio max_str_digits nome n cabecalho dados =
  Retorna (Relatorio nome n (length cabecalho)
             (map (fun col => (col, bloco_de max_str_digits (f col))) cabecalho)).
Proof.
  intros Hdados. unfold imprimir_relatorio.
  rewrite (para_cada_retorna _ (fun col => (col, bloco_de max_str_digits (f col)))).
  - reflexivity.
  - apply Forall_forall. intros col Hcol. rewrite (Hdados col Hcol).
    now rewrite bloco_coluna_bloco_de.
Qed.

(** [analisar_csv] on a file with a header: it prints the report of the
    columns read, and returns. *)
Lemma analisar_csv_com_cabecalho caminho cabecalho linhas :
  analisar_csv max_str_digits caminho (Some (cabecalho :: linhas)) =
  ([Analise
      (Relatorio caminho (length linhas) (length cabecalho)
         (map (fun col => (col, bloco_de max_str_digits (coluna_lida col cabecalho linhas)))
            cabecalho))],
   Retorna tt).
Proof.
  unfold analisar_csv, corpo_analisar_csv. cbn [next].
  destruct (ingestao cabecalho linhas) as [dados [-> Hd]]. cbn [liga].
  rewrite (imprimir_relatorio_retorna _ _ _ _
             (fun col => coluna_lida col cabecalho linhas)).
  - reflexivity.
  - intros col Hcol. now rewrite Hd, decide_True.
Qed.

End FatosRelatorio.

(** ** The integer literal *)

(** Facts about single characters are settled by running through the 256
    code points. *)
Ltac por_caracter c :=
  destruct c as [[] [] [] [] [] [] [] []];
  try discriminate; try reflexivity; try (intros; discriminate).

Lemma sublinhado_eq c : e_sublinhado c = true -> c = "_"%char.
Proof. unfold e_sublinhado. now intros H%Ascii.eqb_eq. Qed.

Lemma digito_nao_sublinhado c : Py_ISDIGIT c = true -> e_sublinhado c = false.
Proof. por_caracter c. Qed.

Lemma digito_nao_espaco c : Py_ISDIGIT c = true -> Py_ISSPACE c = false.
Proof. por_caracter c. Qed.

Lemma digito_nao_sinal c :
  Py_ISDIGIT c = true -> Ascii.eqb c "+" || Ascii.eqb c "-" = false.
Proof. por_caracter c. Qed.

Lemma digito_ascii c : Py_ISDIGIT c = true -> (cod c <? 128)%N = true.
Proof. por_caracter c. Qed.

Lemma digito_nao_branco c : Py_ISDIGIT c = true -> c <> " "%char.
Proof. por_caracter c. Qed.

Lemma digito_nao_interrogacao c : Py_ISDIGIT c = true -> c <> "?"%char.
Proof. por_caracter c. Qed.

Lemma espaco_unicode c : Py_ISSPACE c = true -> Py_UNICODE_ISSPACE c = true.
Proof. por_caracter c. Qed.

Lemma espaco_nao_interrogacao c : Py_ISSPACE c = true -> c <> "?"%char.
Proof. por_caracter c. Qed.

Lemma skip_space_forma p :
  exists ws,
    p = (ws ++ skip_space p)%list
    /\ Forall (fun c => Py_ISSPACE c = true) ws
    /\ match skip_space p with
       | [] => True
       | c :: _ => Py_ISSPACE c = false
       end.
Proof.
  induction p as [|c r (ws & Heq & Hws & Hhd)]; simpl.
  - exists []. auto.
  - destruct (Py_ISSPACE c) eqn:Hc.
    + exists (c :: ws). simpl. rewrite <- Heq. auto.
    + exists []. auto.
Qed.

Lemma skip_space_nil p :
  skip_space p = [] -> Forall (fun c => Py_ISSPACE c = true) p.
Proof.
  intros Hnil. destruct (skip_space_forma p) as (ws & Heq & Hws & _).
  rewrite Hnil, app_nil_r in Heq. now subst.
Qed.

Lemma skip_sign_forma p :
  exists sinal, p = (sinal ++ skip_sign p)%list /\ e_sinal sinal.
Proof.
  unfold e_sinal. destruct p as [|c r]; simpl.
  - exists []. auto.
  - destruct (Ascii.eqb_spec c "+") as [->|Hp]; simpl.
    + exists ["+"%char]. auto.
    + destruct (Ascii.eqb_spec c "-") as [->|Hm].
      * exists ["-"%char]. auto.
      * exists []. auto.
Qed.

Lemma grupos_cabeca corpo :
  grupos_de_digitos corpo ->
  exists c r, corpo = c :: r /\ Py_ISDIGIT c = true.
Proof. destruct 1; eauto. Qed.

Lemma grupos_caracteres corpo :
  grupos_de_digitos corpo ->
  Forall (fun c => Py_ISDIGIT c = true \/ c = "_"%char) corpo.
Proof.
  induction 1 as [c Hc|c r Hc _ IH|c r Hc _ IH].
  - constructor; [now left|constructor].
  - constructor; [now left|assumption].
  - constructor; [now left|]. constructor; [now right|assumption].
Qed.

Lemma n_digitos_cons c r :
  n_digitos (c :: r) = if Py_ISDIGIT c then S (n_digitos r) else n_digitos r.
Proof. unfold n_digitos. simpl. now destruct (Py_ISDIGIT c). Qed.

(** What the validating loop has read when it stops without complaint and
    not on an underscore: groups of digits, counted. *)
Lemma long_scan_grupos p : forall prev d d' prev' fim,
  long_scan prev d p = Some (d', prev', fim) ->
  e_sublinhado prev' = false ->
  (Py_ISDIGIT prev = true ->
     exists corpo,
       p = (corpo ++ fim)%list /\ grupos_de_digitos (prev :: corpo)
       /\ d' = d + n_digitos corpo)
  /\ (e_sublinhado prev = true ->
     exists corpo,
       p = (corpo ++ fim)%list /\ grupos_de_digitos corpo
       /\ d' = d + n_digitos corpo).
Proof.
  assert (Hvazio : forall prev d fim,
            Py_ISDIGIT prev = true ->
            exists corpo,
              fim = (corpo ++ fim)%list /\ grupos_de_digitos (prev :: corpo)
              /\ d = d + n_digitos corpo).
  { intros prev d fim Hd. exists []. split; [reflexivity|].
    split; [now constructor|]. unfold n_digitos. simpl. lia. }
  induction p as [|x r IH]; intros prev d d' prev' fim Hscan Hfim.
  - simpl in Hscan. inversion Hscan; subst. split; [apply Hvazio|congruence].
  - simpl in Hscan. destruct (e_sublinhado x) eqn:Hx.
    + rewrite orb_true_r in Hscan.
      destruct (e_sublinhado prev) eqn:Hprev; [discriminate|].
      destruct (IH _ _ _ _ _ Hscan Hfim) as [_ Hsub].
      destruct (Hsub Hx) as (corpo & -> & Hg & ->).
      apply sublinhado_eq in Hx. subst x. split; [|discriminate].
      intros Hd. exists ("_"%char :: corpo). split; [reflexivity|].
      split; [now apply gd_sub|]. now rewrite n_digitos_cons.
    + rewrite orb_false_r in Hscan. destruct (Py_ISDIGIT x) eqn:Hdx.
      * destruct (IH _ _ _ _ _ Hscan Hfim) as [Hdig _].
        destruct (Hdig Hdx) as (corpo & -> & Hg & ->).
        split; intros Hp; exists (x :: corpo); rewrite n_digitos_cons, Hdx;
          (split; [reflexivity|]); (split; [|lia]).
        -- now apply gd_mais.
        -- assumption.
      * inversion Hscan; subst. split; [apply Hvazio|congruence].
Qed.

Lemma grupos_long_scan corpo :
  grupos_de_digitos corpo ->
  forall prev d,
    exists ultimo,
      long_scan prev d corpo = Some (d + n_digitos corpo, ultimo, [])
      /\ Py_ISDIGIT ultimo = true.
Proof.
  induction 1 as [c Hc|c r Hc _ IH|c r Hc _ IH]; intros prev d.
  - exists c. simpl. rewrite Hc, (digito_nao_sublinhado c Hc). simpl.
    rewrite n_digitos_cons, Hc. unfold n_digitos. simpl.
    split; [do 3 f_equal; lia|reflexivity].
  - destruct (IH c (S d)) as (ultimo & Hscan & Hu). exists ultimo.
    simpl. rewrite Hc, (digito_nao_sublinhado c Hc). simpl.
    rewrite Hscan, n_digitos_cons, Hc. split; [do 3 f_equal; lia|assumption].
  - destruct (IH "_"%char (S d)) as (ultimo & Hscan & Hu). exists ultimo.
    cbn [long_scan]. rewrite Hc, (digito_nao_sublinhado c Hc).
    cbn [orb]. change (e_sublinhado "_") with true.
    change (Py_ISDIGIT "_") with false. cbn [orb].
    rewrite Hscan, !n_digitos_cons, Hc.
    change (Py_ISDIGIT "_") with false.
    split; [do 3 f_equal; lia|assumption].
Qed.

Section Inteiro.
Variable max_str_digits : nat.

Lemma limite_reflete d :
  negb (Nat.ltb MAX_STR_DIGITS_THRESHOLD d && Nat.ltb 0 max_str_digits
        && Nat.ltb max_str_digits d) = true
  <-> dentro_do_limite max_str_digits d.
Proof.
  unfold dentro_do_limite. rewrite negb_true_iff.
  destruct (Nat.ltb_spec MAX_STR_DIGITS_THRESHOLD d),
    (Nat.ltb_spec 0 max_str_digits), (Nat.ltb_spec max_str_digits d);
    simpl; split; intros; try discriminate; try reflexivity; lia.
Qed.

(** What [PyLong_FromString] accepts: blanks, a sign, groups of digits
    within the limit, blanks. *)
Lemma PyLong_FromString_forma t :
  PyLong_FromString max_str_digits t = true ->
  exists ws1 sinal corpo ws2,
    t = (ws1 ++ sinal ++ corpo ++ ws2)%list
    /\ Forall (fun c => Py_ISSPACE c = true) ws1
    /\ e_sinal sinal
    /\ grupos_de_digitos corpo
    /\ Forall (fun c => Py_ISSPACE c = true) ws2
    /\ dentro_do_limite max_str_digits (n_digitos corpo).
Proof.
  unfold PyLong_FromString. intros Hok.
  destruct (skip_space_forma t) as (ws1 & Ht & Hws1 & _).
  destruct (skip_sign_forma (skip_space t)) as (sinal & Hs & Hsinal).
  set (str := skip_sign (skip_space t)) in *.
  unfold long_from_string_base in Hok.
  destruct str as [|c r] eqn:Hstr; [discriminate|].
  destruct (e_sublinhado c) eqn:Hc; [discriminate|].
  destruct (long_scan zero 0 (c :: r)) as [[[digits prev] fim]|] eqn:Hscan;
    [|discriminate].
  destruct (e_sublinhado prev) eqn:Hprev; [discriminate|].
  destruct (Nat.eqb_spec (length fim) (length (c :: r))) as [|Hlen];
    [discriminate|].
  destruct (skip_space fim) eqn:Hfim; [|discriminate].
  apply limite_reflete in Hok.
  simpl in Hscan. rewrite Hc, orb_false_r in Hscan.
  destruct (Py_ISDIGIT c) eqn:Hd.
  - destruct (long_scan_grupos _ _ _ _ _ _ Hscan Hprev) as [Hdig _].
    destruct (Hdig Hd) as (corpo & Hr & Hg & Hn).
    exists ws1, sinal, (c :: corpo), fim. repeat split; try assumption.
    + rewrite Ht, Hs, Hr. now rewrite <- app_comm_cons.
    + now apply skip_space_nil.
    + rewrite n_digitos_cons, Hd. now rewrite Hn in Hok.
  - inversion Hscan; subst. contradiction.
Qed.

Lemma PyLong_FromString_literal sinal corpo :
  e_sinal sinal -> grupos_de_digitos corpo ->
  dentro_do_limite max_str_digits (n_digitos corpo) ->
  PyLong_FromString max_str_digits (sinal ++ corpo) = true.
Proof.
  intros Hsinal Hg Hlim. unfold PyLong_FromString.
  destruct (grupos_cabeca corpo Hg) as (c & r & -> & Hc).
  assert (Hstr : skip_sign (skip_space (sinal ++ c :: r)) = c :: r).
  { destruct Hsinal as [->|[->| ->]]; simpl.
    - rewrite (digito_nao_espaco c Hc). simpl.
      now rewrite (digito_nao_sinal c Hc).
    - reflexivity.
    - reflexivity. }
  rewrite Hstr. unfold long_from_string_base.
  rewrite (digito_nao_sublinhado c Hc).
  destruct (grupos_long_scan (c :: r) Hg zero 0) as (ultimo & -> & Hu).
  rewrite (digito_nao_sublinhado ultimo Hu). simpl.
  now apply limite_reflete.
Qed.

End Inteiro.

(** *** Trimming and the transformation to ASCII *)

Lemma lstrip_cabeca l :
  match lstrip l with
  | [] => True
  | c :: _ => Py_UNICODE_ISSPACE c = false
  end.
Proof.
  induction l as [|c r IH]; simpl; [exact I|].
  destruct (Py_UNICODE_ISSPACE c) eqn:Hc; [exact IH|exact Hc].
Qed.

Lemma lstrip_snoc l c :
  Py_UNICODE_ISSPACE c = false -> lstrip (l ++ [c]) = (lstrip l ++ [c])%list.
Proof.
  intros Hc. induction l as [|x r IH]; simpl.
  - now rewrite Hc.
  - destruct (Py_UNICODE_ISSPACE x); [exact IH|reflexivity].
Qed.

Lemma rstrip_cons c r :
  Py_UNICODE_ISSPACE c = false -> rstrip (c :: r) = c :: rstrip r.
Proof.
  intros Hc. unfold rstrip. simpl.
  now rewrite (lstrip_snoc _ _ Hc), rev_app_distr.
Qed.

(** A trimmed string has no Unicode space at either end. *)
Lemma aparado_strip l : aparado (rstrip (lstrip l)).
Proof.
  split.
  - pose proof (lstrip_cabeca l) as Hl.
    destruct (lstrip l) as [|c r]; [exact I|].
    now rewrite (rstrip_cons c r Hl).
  - unfold rstrip. rewrite rev_involutive. apply lstrip_cabeca.
Qed.

Lemma transform_loop_transformado u :
  "?"%char ∉ transform_loop u -> Forall2 transformado u (transform_loop u).
Proof.
  induction u as [|c r IH]; simpl; [constructor|].
  destruct (cod c <? 127)%N.
  - rewrite not_elem_of_cons. intros [_ Hr].
    constructor; [now left|auto].
  - destruct (Py_UNICODE_ISSPACE c) eqn:Hc.
    + rewrite not_elem_of_cons. intros [_ Hr].
      constructor; [now right|auto].
    + intros Hq. exfalso. apply Hq. now left.
Qed.

Lemma Transform_transformado u :
  "?"%char ∉ TransformDecimalAndSpaceToASCII u ->
  Forall2 transformado u (TransformDecimalAndSpaceToASCII u).
Proof.
  unfold TransformDecimalAndSpaceToASCII.
  destruct (forallb _ u); [|apply transform_loop_transformado].
  intros _. induction u; constructor; [now left|assumption].
Qed.

(** A kept character that is no blank is the character itself. *)
Lemma transformado_igual u t :
  Forall2 transformado u t -> Forall (fun c => c <> " "%char) t -> u = t.
Proof.
  induction 1 as [|c c' u t Hc _ IH]; [reflexivity|].
  intros Hnb. inversion Hnb as [|? ? Hc' Ht]; subst.
  destruct Hc as [->|[-> _]]; [|contradiction].
  now rewrite IH.
Qed.

Lemma e_sinal_caracteres sinal :
  e_sinal sinal ->
  Forall (fun c => c <> " "%char /\ c <> "?"%char /\ Py_ISDIGIT c = false
                   /\ (cod c <? 128)%N = true) sinal.
Proof.
  intros [->|[->| ->]]; repeat constructor; discriminate.
Qed.

Lemma grupos_caracteres_ascii corpo :
  grupos_de_digitos corpo ->
  Forall (fun c => c <> " "%char /\ c <> "?"%char /\ (cod c <? 128)%N = true)
    corpo.
Proof.
  intros Hg. apply grupos_caracteres in Hg.
  eapply Forall_impl; [exact Hg|]. intros c [Hd| ->].
  - split; [now apply digito_nao_branco|].
    split; [now apply digito_nao_interrogacao|now apply digito_ascii].
  - repeat split; discriminate.
Qed.

Lemma n_digitos_app l l' : n_digitos (l ++ l') = n_digitos l + n_digitos l'.
Proof. unfold n_digitos. now rewrite List.filter_app, length_app. Qed.

Lemma n_digitos_sinal sinal : e_sinal sinal -> n_digitos sinal = 0.
Proof. intros [->|[->| ->]]; reflexivity. Qed.

Section InteiroAparado.
Variable max_str_digits : nat.

(** [int] on a trimmed string: it returns exactly on an optional sign
    followed by groups of digits within the digit limit. *)
Lemma int_aparado u :
  aparado u ->
  PyLong_FromString max_str_digits (TransformDecimalAndSpaceToASCII u) = true
  <-> (exists sinal corpo,
         u = (sinal ++ corpo)%list /\ e_sinal sinal /\ grupos_de_digitos corpo)
      /\ dentro_do_limite max_str_digits (n_digitos u).
Proof.
  intros [Hini Hfim]. split.
  - intros Hok.
    destruct (PyLong_FromString_forma _ _ Hok)
      as (ws1 & sinal & corpo & ws2 & Ht & Hws1 & Hsinal & Hg & Hws2 & Hlim).
    assert (Hq : "?"%char ∉ TransformDecimalAndSpaceToASCII u).
    { rewrite Ht, !elem_of_app. intros [Hin|[Hin|[Hin|Hin]]].
      - rewrite Forall_forall in Hws1.
        now apply (espaco_nao_interrogacao _ (Hws1 _ Hin)).
      - pose proof (e_sinal_caracteres _ Hsinal) as Hs.
        rewrite Forall_forall in Hs. now apply (Hs _ Hin).
      - pose proof (grupos_caracteres_ascii _ Hg) as Hc.
        rewrite Forall_forall in Hc. now apply (Hc _ Hin).
      - rewrite Forall_forall in Hws2.
        now apply (espaco_nao_interrogacao _ (Hws2 _ Hin)). }
    pose proof (Transform_transformado u Hq) as Htr. rewrite Ht in Htr.
    assert (Hw1 : ws1 = []).
    { destruct ws1 as [|w ws1]; [reflexivity|]. exfalso.
      inversion Hws1 as [|? ? Hw _]; subst.
      inversion Htr as [|c ? u' ? Hc _]; subst. simpl in Hini.
      apply espaco_unicode in Hw. destruct Hc as [->|[_ Hc]]; congruence. }
    assert (Hw2 : ws2 = []).
    { destruct ws2 as [|w ws2 _] using rev_ind; [reflexivity|]. exfalso.
      apply Forall_app in Hws2. destruct Hws2 as [_ Hw].
      inversion Hw as [|? ? Hw' _]; subst.
      rewrite !app_assoc in Htr.
      apply Forall2_app_inv_r in Htr.
      destruct Htr as (u1 & u2 & _ & Hu2 & ->).
      inversion Hu2 as [|c ? u' ? Hc Hnil]; subst. inversion Hnil; subst.
      rewrite rev_app_distr in Hfim. simpl in Hfim.
      apply espaco_unicode in Hw'. destruct Hc as [->|[_ Hc]]; congruence. }
    subst ws1 ws2. rewrite app_nil_r in Htr, Ht. simpl in Htr, Ht.
    assert (Hu : u = (sinal ++ corpo)%list).
    { apply transformado_igual; [assumption|]. apply Forall_app. split.
      - eapply Forall_impl; [apply (e_sinal_caracteres _ Hsinal)|].
        now intros c [Hc _].
      - eapply Forall_impl; [apply (grupos_caracteres_ascii _ Hg)|].
        now intros c [Hc _]. }
    split; [eauto|].
    now rewrite Hu, n_digitos_app, (n_digitos_sinal _ Hsinal).
  - intros [(sinal & corpo & -> & Hsinal & Hg) Hlim].
    rewrite n_digitos_app, (n_digitos_sinal _ Hsinal) in Hlim.
    unfold TransformDecimalAndSpaceToASCII.
    assert (Hascii : forallb (fun ch => (cod ch <? 128)%N) (sinal ++ corpo) = true).
    { apply forallb_forall. intros c Hin. apply in_app_or in Hin.
      destruct Hin as [Hin|Hin]; apply list_elem_of_In in Hin.
      - pose proof (e_sinal_caracteres _ Hsinal) as Hs.
        rewrite Forall_forall in Hs. now apply (Hs _ Hin).
      - pose proof (grupos_caracteres_ascii _ Hg) as Hc.
        rewrite Forall_forall in Hc. now apply (Hc _ Hin). }
    rewrite Hascii. now apply PyLong_FromString_literal.
Qed.

End InteiroAparado.

(** * The specified properties *)

Section Afirmacoes.
Variable max_str_digits : nat.

Lemma length_valores_nao_vazios (valores : list string) :
  length (valores_nao_vazios valores) + ocorrencias EmptyString valores =
  length valores.
Proof.
  induction valores as [|v r IH]; [reflexivity|].
  rewrite ocorrencias_cons. unfold valores_nao_vazios in *.
  cbn [List.filter]. destruct (decide (v = EmptyString)) as [->|Hne].
  - simpl. lia.
  - apply String.eqb_neq in Hne. rewrite Hne. simpl. lia.
Qed.

(** C1 (count conservation).  Whatever the header and the rows, the loop
    ends, and for every column of the header the number of values observed
    is the number of empty ones plus the sum of the counts in the frequency
    table of the non-empty ones; the number of empty ones, which line 96
    gets by subtraction, is the number of empty values in the column. *)
Theorem conservacao_de_contagens
    (cabecalho : list string) (linhas : list (list string)) (coluna : string) :
  coluna ∈ cabecalho ->
  exists dados valores,
    processa_linhas cabecalho (0, dados_iniciais cabecalho) linhas =
      Retorna (length linhas, dados)
    /\ dados !! coluna = Some valores
    /\ total_valores valores =
       valores_vazios valores + soma_valores (contagem_valores valores)
    /\ valores_vazios valores = ocorrencias EmptyString valores.
Proof.
  intros Hcol. destruct (ingestao cabecalho linhas) as [dados [Hrun Hd]].
  exists dados, (coluna_lida coluna cabecalho linhas).
  split; [assumption|]. split; [now rewrite Hd, decide_True|].
  set (valores := coluna_lida coluna cabecalho linhas).
  pose proof (length_valores_nao_vazios valores) as Hlen.
  unfold contagem_valores, valores_vazios, total_valores.
  rewrite soma_valores_Counter. lia.
Qed.


(** C3 (malformed rows).  A row whose number of fields differs from the
    header's is counted and changes no column; with header x, y and the rows
    1,2 and 3 the row count is 2, one row is malformed and the frequency
    table of x is exactly 1 -> 1. *)
Theorem linha_malformada_ignorada :
  (forall (cabecalho linha : list string) (contagem_linhas : nat)
          (dados_colunas : gmap string (list string)),
      length linha <> length cabecalho ->
      processa_linha cabecalho (contagem_linhas, dados_colunas) linha =
        Retorna (S contagem_linhas, dados_colunas))
  /\ (let cabecalho := ["x"; "y"] in
      let linhas := [["1"; "2"]; ["3"]] in
      exists dados,
        processa_linhas cabecalho (0, dados_iniciais cabecalho) linhas =
          Retorna (2, dados)
        /\ length (List.filter (malformada (length cabecalho)) linhas) = 1
        /\ dados !! "x" = Some ["1"]
        /\ contagem_valores ["1"] = [("1", 1)]).
Proof.
  split.
  - intros cabecalho linha n d Hlen. unfold processa_linha, malformada.
    destruct (Nat.eqb_spec (length linha) (length cabecalho)) as [Heq|_];
      [contradiction|reflexivity].
  - intros cabecalho linhas.
    destruct (ingestao cabecalho linhas) as [dados [Hrun Hd]].
    exists dados. split; [exact Hrun|]. split; [reflexivity|].
    split; [|reflexivity]. rewrite Hd. reflexivity.
Qed.

(** C5, as the code has it.  When the row source yields no row at all, the
    function prints the no-header message and nothing else, so no report,
    and returns normally. *)
Theorem arquivo_sem_linhas (caminho : string) :
  analisar_csv max_str_digits caminho (Some []) =
  ([ErroSemCabecalho caminho], Retorna tt).
Proof. reflexivity. Qed.

(** C8 (all-empty column).  A column with no non-empty value gets the
    all-empty notice, with neither a predominant type nor a ranking; with
    header z and two rows holding an empty field, the column has no
    non-empty value and the report is that notice. *)
Theorem coluna_toda_vazia :
  (forall valores : list string,
      length (valores_nao_vazios valores) = 0 ->
      bloco_coluna max_str_digits valores = Retorna TodosVazios)
  /\ (forall caminho : string,
        length (valores_nao_vazios
                  (coluna_lida "z" ["z"] [[EmptyString]; [EmptyString]])) = 0
        /\ analisar_csv max_str_digits caminho
             (Some [["z"]; [EmptyString]; [EmptyString]]) =
           ([Analise (Relatorio caminho 2 1 [("z", TodosVazios)])], Retorna tt)).
Proof.
  split.
  - intros valores Hlen. unfold bloco_coluna.
    destruct (valores_nao_vazios valores); [reflexivity|discriminate].
  - intros caminho. split; reflexivity.
Qed.

Lemma filter_colunas (g : string -> bloco) (nome : string)
    (cabecalho : list string) :
  List.filter (fun e : string * bloco => bool_decide (fst e = nome))
    (map (fun col => (col, g col)) cabecalho) =
  replicate (ocorrencias nome cabecalho) (nome, g nome).
Proof.
  induction cabecalho as [|c r IH]; [reflexivity|].
  rewrite ocorrencias_cons. simpl. destruct (decide (c = nome)) as [->|Hne].
  - rewrite bool_decide_eq_true_2 by reflexivity. simpl. now rewrite IH.
  - rewrite bool_decide_eq_false_2 by assumption. exact IH.
Qed.

(** C10 (duplicate header names).  When the header holds [nome] at k > 1
    positions, the loop keeps one list under that name, which receives, row
    by row, the trimmed cells of every well-formed row at those positions,
    so k values per well-formed row; and the report has k blocks under that
    name, all of them the block of that one list. *)
Theorem cabecalho_duplicado
    (caminho : string) (cabecalho : list string) (linhas : list (list string))
    (nome : string) (k : nat) :
  ocorrencias nome cabecalho = k ->
  1 < k ->
  exists dados valores r,
    processa_linhas cabecalho (0, dados_iniciais cabecalho) linhas =
      Retorna (length linhas, dados)
    /\ dados !! nome = Some valores
    /\ valores = coluna_lida nome cabecalho linhas
    /\ total_valores valores = k * length (bem_formadas cabecalho linhas)
    /\ analisar_csv max_str_digits caminho (Some (cabecalho :: linhas)) =
         ([Analise r], Retorna tt)
    /\ bloco_coluna max_str_digits valores =
         Retorna (bloco_de max_str_digits valores)
    /\ List.filter (fun e : string * bloco => bool_decide (fst e = nome))
         (colunas r) =
       replicate k (nome, bloco_de max_str_digits valores).
Proof.
  intros Hk Hk1. destruct (ingestao cabecalho linhas) as [dados [Hrun Hd]].
  assert (Hin : nome ∈ cabecalho) by (apply ocorrencias_pos; lia).
  exists dados, (coluna_lida nome cabecalho linhas). eexists.
  split; [exact Hrun|]. split; [now rewrite Hd, decide_True|].
  split; [reflexivity|].
  split; [unfold total_valores; now rewrite length_coluna_lida, Hk|].
  split; [apply analisar_csv_com_cabecalho|].
  split; [apply bloco_coluna_bloco_de|].
  cbn [colunas]. rewrite <- Hk.
  apply (filter_colunas
           (fun col => bloco_de max_str_digits (coluna_lida col cabecalho linhas))).
Qed.

(** C4, as the code has it.  A column with a non-empty value has a
    predominant type.  Its tally is the highest, and every other type with
    the same tally first shows up later in the column: a tie goes to the
    type met first among the column's non-empty values, not to the first in
    a fixed order of the types.  The result is a function of the column. *)
Theorem desempate_por_primeira_ocorrencia (valores : list string) :
  valores_nao_vazios valores <> [] ->
  let tipos := map (inferir_tipo_dado max_str_digits)
                 (valores_nao_vazios valores) in
  exists tipo,
    tipo_predominante max_str_digits valores = Retorna tipo
    /\ tipo ∈ tipos
    /\ forall outro,
         ocorrencias outro tipos <= ocorrencias tipo tipos
         /\ (ocorrencias outro tipos = ocorrencias tipo tipos ->
             outro <> tipo ->
             indice tipo tipos < indice outro tipos).
Proof.
  intros Hne tipos.
  destruct (tipo_predominante_retorna max_str_digits valores Hne)
    as (tipo & m & Hmc & Hret).
  unfold tipos_inferidos in Hmc. fold tipos in Hmc.
  destruct (most_common_Counter tipos 1) as (_ & Hin & Hfora & _).
  rewrite Hmc in Hin, Hfora.
  destruct (Hin tipo m) as [Htipo Hm]; [now left|].
  exists tipo. split; [assumption|]. split; [assumption|].
  intros outro. destruct (decide (outro = tipo)) as [->|Hdif];
    [split; [lia|congruence]|].
  destruct (decide (outro ∈ tipos)) as [Houtro|Houtro].
  - specialize (Hfora outro Houtro).
    assert (Hnin : (outro, ocorrencias outro tipos) ∉ [(tipo, m)]).
    { rewrite list_elem_of_singleton. congruence. }
    specialize (Hfora Hnin). inversion Hfora as [|? ? Hantes _]; subst.
    unfold antes in Hantes. simpl in Hantes. split; [lia|].
    intros Heq _. lia.
  - assert (Hz : ocorrencias outro tipos = 0).
    { destruct (ocorrencias outro tipos) eqn:E; [reflexivity|].
      exfalso. apply Houtro, ocorrencias_pos. lia. }
    apply ocorrencias_pos in Htipo. split; [lia|]. intros Heq. lia.
Qed.

(** C6 (top-N).  The ranking [most_common n] of a column's values is in
    the order "higher count first, then first seen first"; each entry is a
    value of the column with its number of occurrences; a value left out
    ranks after every entry; and there are n entries, or as many as there
    are distinct values.  On a, b, a, c, b, a the five most common are
    a (3, 50.0%), b (2, 33.3%) and c (1, 16.7%), in that order. *)
Theorem ranking_deterministico (valores : list string) (n : nat) :
  let r := most_common n (Counter valores) in
  StronglySorted (antes valores) r
  /\ (forall v m, (v, m) ∈ r -> v ∈ valores /\ m = ocorrencias v valores)
  /\ (forall v, v ∈ valores -> (v, ocorrencias v valores) ∉ r ->
        Forall (fun e => antes valores e (v, ocorrencias v valores)) r)
  /\ length r = Nat.min n (length (primeiras valores))
  /\ mais_comuns ["a"; "b"; "a"; "c"; "b"; "a"] =
     Retorna [("a", 3, "50.0"); ("b", 2, "33.3"); ("c", 1, "16.7")].
Proof.
  intros r. destruct (most_common_Counter valores n) as (H1 & H2 & H3 & H4).
  split; [exact H1|]. split; [exact H2|]. split; [exact H3|].
  split; [exact H4|]. vm_compute. reflexivity.
Qed.

Lemma minusculas_inv (palavra alvo : string) :
  minusculas palavra = alvo ->
  exists l,
    palavra = string_of_list_ascii l
    /\ map Py_TOLOWER l = list_ascii_of_string alvo.
Proof.
  intros <-. exists (list_ascii_of_string palavra).
  rewrite string_of_list_ascii_of_string. unfold minusculas.
  now rewrite list_ascii_of_string_of_list_ascii.
Qed.

Lemma minuscula_de (c x : ascii) :
  Py_TOLOWER c = x -> c = x \/ c = ascii_of_N (cod x - 32).
Proof.
  destruct c as [[] [] [] [] [] [] [] []]; intros <-;
    solve [left; reflexivity | right; reflexivity].
Qed.

(** The letters of a word whose small-letter form is known, one by one. *)
Ltac soletra Hl l :=
  simpl in Hl;
  repeat (destruct l as [|? l]; [discriminate Hl|];
          simpl in Hl; injection Hl as ? Hl);
  destruct l; [clear Hl|discriminate Hl];
  repeat match goal with
         | H : Py_TOLOWER _ = _ |- _ =>
             apply minuscula_de in H; destruct H as [->| ->]
         end.


(** C9 (non-finite keywords).  With or without a sign, nan, inf and
    infinity in any mix of capitals and small letters are classified as
    Float. *)
Theorem palavras_nao_finitas (sinal palavra : string) :
  sinal = EmptyString \/ sinal = "+" \/ sinal = "-" ->
  minusculas palavra = "nan" \/ minusculas palavra = "inf"
    \/ minusculas palavra = "infinity" ->
  inferir_tipo_dado max_str_digits (sinal ++ palavra) = Float.
Proof.
  intros Hs [H|[H|H]]; apply minusculas_inv in H; destruct H as (l & -> & Hl);
    soletra Hl l; destruct Hs as [->|[->| ->]]; vm_compute; reflexivity.
Qed.

End Afirmacoes.

(** * Further properties of the program *)

(** ** More on counters and rankings *)

Section MaisContador.
Context {K : Type} `{EqDecision K}.
Implicit Types (c : list (K * nat)) (l : list K).

Lemma insere_Permutation (x : K * nat) c : insere x c ≡ₚ x :: c.
Proof.
  induction c as [|y r IH]; simpl; [reflexivity|].
  destruct (Nat.leb (snd y) (snd x)); [reflexivity|].
  rewrite IH. apply Permutation_swap.
Qed.

Lemma ordena_Permutation c : ordena c ≡ₚ c.
Proof.
  induction c as [|x r IH]; simpl; [reflexivity|].
  now rewrite insere_Permutation, IH.
Qed.

Lemma soma_valores_Permutation c c' :
  c ≡ₚ c' -> soma_valores c = soma_valores c'.
Proof.
  induction 1 as [|x c c' _ IH|x y c|c c' c'' _ IH1 _ IH2]; simpl; lia.
Qed.

Lemma soma_valores_take n c : soma_valores (take n c) <= soma_valores c.
Proof.
  revert n. induction c as [|x r IH]; intros [|n]; simpl; try lia.
  specialize (IH n). lia.
Qed.

Lemma NoDup_chaves_Counter l : NoDup (map fst (Counter l)).
Proof.
  rewrite Counter_forma, map_map. simpl. rewrite map_id.
  apply NoDup_primeiras.
Qed.

(** The keys of a ranking are distinct, and its counts sum to no more than
    the number of elements counted: to exactly that number when the ranking
    has room for every distinct element. *)
Lemma most_common_soma l n :
  NoDup (map fst (most_common n (Counter l)))
  /\ soma_valores (most_common n (Counter l)) <= length l
  /\ (length (primeiras l) <= n ->
      soma_valores (most_common n (Counter l)) = length l).
Proof.
  unfold most_common.
  assert (Hs : soma_valores (ordena (Counter l)) = length l).
  { rewrite (soma_valores_Permutation _ _ (ordena_Permutation _)).
    apply soma_valores_Counter. }
  split; [|split].
  - assert (Hnd : NoDup (map fst (ordena (Counter l)))).
    { pose proof (fmap_Permutation fst _ _ (ordena_Permutation (Counter l)))
        as Hp.
      apply (NoDup_Permutation_proper _ _ Hp), NoDup_chaves_Counter. }
    rewrite <- (take_drop n (ordena (Counter l))), map_app in Hnd.
    now apply NoDup_app in Hnd.
  - rewrite <- Hs. apply soma_valores_take.
  - intros Hn. rewrite take_ge; [exact Hs|].
    now rewrite length_ordena, length_Counter.
Qed.

End MaisContador.

(** ** More on the report *)

Section MaisRelatorio.
Variable max_str_digits : nat.
Implicit Types (valores : list string).

Lemma valores_nao_vazios_nil valores :
  valores_nao_vazios valores = [] <->
  Forall (fun v => v = EmptyString) valores.
Proof.
  unfold valores_nao_vazios. induction valores as [|v r IH]; simpl.
  - split; [constructor|reflexivity].
  - destruct (String.eqb_spec v EmptyString) as [->|Hne]; simpl.
    + rewrite IH. split; [now constructor|].
      intros H. now inversion H.
    + split; [discriminate|]. intros H. inversion H. contradiction.
Qed.

Lemma elem_of_valores_nao_vazios v valores :
  v ∈ valores_nao_vazios valores <-> v ∈ valores /\ v <> EmptyString.
Proof.
  unfold valores_nao_vazios.
  rewrite !list_elem_of_In, filter_In, negb_true_iff, String.eqb_neq.
  reflexivity.
Qed.

Lemma ocorrencias_valores_nao_vazios v valores :
  v <> EmptyString ->
  ocorrencias v (valores_nao_vazios valores) = ocorrencias v valores.
Proof.
  intros Hv. unfold valores_nao_vazios.
  induction valores as [|x r IH]; [reflexivity|].
  cbn [List.filter]. rewrite (ocorrencias_cons v x r).
  destruct (String.eqb_spec x EmptyString) as [->|Hx]; simpl.
  - rewrite decide_False by congruence. exact IH.
  - now rewrite ocorrencias_cons, IH.
Qed.

(** The number of distinct values is the length of the frequency table. *)
Lemma contagem_unicos_primeiras valores :
  contagem_unicos valores = length (primeiras (valores_nao_vazios valores)).
Proof.
  unfold contagem_unicos.
  rewrite <- (size_list_to_set (C := gset string)
                (primeiras (valores_nao_vazios valores)))
    by apply NoDup_primeiras.
  f_equal. apply set_eq. intros v.
  now rewrite !elem_of_list_to_set, elem_of_primeiras.
Qed.

Lemma length_primeiras {K} `{EqDecision K} (l : list K) :
  length (primeiras l) <= length l.
Proof.
  induction l as [|x l IH] using rev_ind; [reflexivity|].
  rewrite primeiras_snoc, length_app. simpl.
  destruct (decide (x ∈ primeiras l)); [lia|].
  rewrite length_app. simpl. lia.
Qed.

Lemma inferir_tipo_dado_vazio (valor : string) :
  inferir_tipo_dado max_str_digits valor = Vazio <-> valor = EmptyString.
Proof.
  unfold inferir_tipo_dado.
  destruct (String.eqb_spec valor EmptyString) as [->|Hne]; [tauto|].
  destruct (int_aceita _ _); [split; [discriminate|contradiction]|].
  destruct (float_aceita _); split; try discriminate; contradiction.
Qed.

(** The block of a column that has a non-empty value. *)
Lemma bloco_coluna_estatisticas valores :
  valores_nao_vazios valores <> [] ->
  exists tipo m,
    most_common 1 (tipos_inferidos max_str_digits valores) = [(tipo, m)]
    /\ bloco_coluna max_str_digits valores =
       Retorna
         (Estatisticas
            (length (valores_nao_vazios valores))
            (total_valores valores)
            (valores_vazios valores)
            (contagem_unicos valores)
            (upper (rotulo tipo))
            (map (linha_do_ranking (length (valores_nao_vazios valores)))
               (most_common 5 (contagem_valores valores)))).
Proof.
  intros Hne.
  destruct (tipo_predominante_retorna max_str_digits valores Hne)
    as (tipo & m & Hmc & Hret).
  exists tipo, m. split; [exact Hmc|]. unfold bloco_coluna.
  rewrite Hret, (mais_comuns_retorna valores Hne).
  destruct (valores_nao_vazios valores); [contradiction|reflexivity].
Qed.

Lemma soma_do_ranking_linhas n (c : list (string * nat)) :
  soma_do_ranking (map (linha_do_ranking n) c) = soma_valores c.
Proof.
  induction c as [|e r IH]; simpl; [reflexivity|]. now rewrite IH.
Qed.

Lemma bloco_coluna_inv valores nv total vz un tipo mc :
  bloco_coluna max_str_digits valores =
    Retorna (Estatisticas nv total vz un tipo mc) ->
  valores_nao_vazios valores <> []
  /\ nv = length (valores_nao_vazios valores)
  /\ total = total_valores valores
  /\ vz = valores_vazios valores
  /\ un = contagem_unicos valores
  /\ (exists t m,
        most_common 1 (tipos_inferidos max_str_digits valores) = [(t, m)]
        /\ tipo = upper (rotulo t))
  /\ mc = map (linha_do_ranking (length (valores_nao_vazios valores)))
            (most_common 5 (contagem_valores valores)).
Proof.
  intros Hb.
  destruct (valores_nao_vazios valores) as [|v r] eqn:Hnv.
  - unfold bloco_coluna in Hb. rewrite Hnv in Hb. discriminate.
  - assert (Hne : valores_nao_vazios valores <> [])
      by (rewrite Hnv; discriminate).
    destruct (bloco_coluna_estatisticas valores Hne) as (t & m & Hmc & Heq).
    rewrite Heq in Hb. inversion Hb; subst. rewrite <- Hnv.
    repeat (split; [first [assumption|reflexivity]|]).
    split; [eauto|reflexivity].
Qed.

Lemma analisar_csv_forma (caminho : string)
    (arquivo : option (list (list string))) :
  analisar_csv max_str_digits caminho arquivo =
  ([mensagem_de max_str_digits caminho arquivo], Retorna tt).
Proof.
  destruct arquivo as [[|cabecalho linhas]|]; try reflexivity.
  apply analisar_csv_com_cabecalho.
Qed.

Lemma percorre_leitor_retorna cabecalho linhas (fim : excecao) :
  percorre_leitor cabecalho (0, dados_iniciais cabecalho) linhas fim =
  match fim with
  | StopIteration =>
      processa_linhas cabecalho (0, dados_iniciais cabecalho) linhas
  | _ => Levanta fim
  end.
Proof.
  unfold percorre_leitor.
  destruct (ingestao cabecalho linhas) as (dados & -> & _).
  now destruct fim.
Qed.

Lemma analisar_csv_es_forma (caminho : string) (arquivo : arquivo_aberto) :
  analisar_csv_es max_str_digits caminho arquivo =
  ([mensagem_es max_str_digits caminho arquivo], Retorna tt).
Proof.
  destruct arquivo as [e|[|cabecalho linhas] fim].
  - now destruct e.
  - now destruct fim.
  - unfold analisar_csv_es, corpo_analisar_csv_es. cbn [next_leitor].
    rewrite percorre_leitor_retorna.
    destruct fim; try reflexivity.
    apply (analisar_csv_com_cabecalho max_str_digits caminho cabecalho linhas).
Qed.


(** X2.  A column's block is the all-empty notice exactly when every
    value of the column is empty: one non-empty value is enough for the
    statistics to be shown. *)
Theorem todos_vazios_sse valores :
  bloco_coluna max_str_digits valores = Retorna TodosVazios
  <-> Forall (fun v => v = EmptyString) valores.
Proof.
  rewrite <- valores_nao_vazios_nil. split.
  - intros Hb. destruct (valores_nao_vazios valores) as [|v r] eqn:Hnv;
      [reflexivity|].
    assert (Hne : valores_nao_vazios valores <> [])
      by (rewrite Hnv; discriminate).
    destruct (bloco_coluna_estatisticas valores Hne) as (t & m & _ & Heq).
    rewrite Heq in Hb. discriminate.
  - intros Hnv. unfold bloco_coluna. now rewrite Hnv.
Qed.

(** X3.  In a block of statistics the counts agree: the non-empty and the
    empty values make up the column, the empty ones are the empty strings
    of the column, and there is at least one distinct value and no more
    distinct values than non-empty ones. *)
Theorem estatisticas_coerentes valores nv total vz un tipo mc :
  bloco_coluna max_str_digits valores =
    Retorna (Estatisticas nv total vz un tipo mc) ->
  1 <= un /\ un <= nv /\ nv + vz = total /\ total = length valores
  /\ vz = ocorrencias EmptyString valores.
Proof.
  intros Hb.
  destruct (bloco_coluna_inv _ _ _ _ _ _ _ Hb)
    as (Hne & -> & -> & -> & -> & _ & _).
  pose proof (length_valores_nao_vazios valores) as Hlen.
  rewrite contagem_unicos_primeiras.
  pose proof (length_primeiras (valores_nao_vazios valores)) as Hp.
  unfold valores_vazios, total_valores.
  destruct (valores_nao_vazios valores) as [|v r] eqn:Hnv; [contradiction|].
  pose proof (primeiras_nao_vazia v r) as Hpn.
  destruct (primeiras (v :: r)); [contradiction|]. simpl in *. lia.
Qed.

(** X4.  The predominant type shown is INT, FLOAT or STRING, never VAZIO:
    only non-empty values are classified. *)
Theorem tipo_predominante_rotulos valores nv total vz un tipo mc :
  bloco_coluna max_str_digits valores =
    Retorna (Estatisticas nv total vz un tipo mc) ->
  tipo = "INT" \/ tipo = "FLOAT" \/ tipo = "STRING".
Proof.
  intros Hb.
  destruct (bloco_coluna_inv _ _ _ _ _ _ _ Hb)
    as (_ & _ & _ & _ & _ & (t & m & Hmc & ->) & _).
  destruct (most_common_Counter
              (map (inferir_tipo_dado max_str_digits)
                 (valores_nao_vazios valores)) 1) as (_ & Hin & _ & _).
  unfold tipos_inferidos in Hmc. rewrite Hmc in Hin.
  destruct (Hin t m) as [Ht _]; [now left|].
  apply list_elem_of_fmap in Ht. destruct Ht as (v & -> & Hv).
  apply elem_of_valores_nao_vazios in Hv. destruct Hv as [_ Hv].
  destruct (inferir_tipo_dado max_str_digits v) eqn:Hi; auto.
  apply inferir_tipo_dado_vazio in Hi. contradiction.
Qed.

(** X5.  The ranking shown has five lines, or one per distinct value when
    there are fewer; its values are distinct and non-empty, each with the
    number of times it occurs in the column; the counts add up to no more
    than the number of non-empty values, and to exactly that number when
    there are at most five distinct values. *)
Theorem ranking_do_relatorio valores nv total vz un tipo mc :
  bloco_coluna max_str_digits valores =
    Retorna (Estatisticas nv total vz un tipo mc) ->
  length mc = Nat.min 5 un
  /\ NoDup (map (fun e => fst (fst e)) mc)
  /\ Forall (fun e => fst (fst e) <> EmptyString
                      /\ snd (fst e) = ocorrencias (fst (fst e)) valores
                      /\ 1 <= snd (fst e)) mc
  /\ soma_do_ranking mc <= nv
  /\ (un <= 5 -> soma_do_ranking mc = nv).
Proof.
  intros Hb.
  destruct (bloco_coluna_inv _ _ _ _ _ _ _ Hb)
    as (_ & -> & _ & _ & -> & _ & ->).
  rewrite contagem_unicos_primeiras. unfold contagem_valores.
  set (nv := valores_nao_vazios valores).
  destruct (most_common_Counter nv 5) as (_ & Hin & _ & Hlen).
  destruct (most_common_soma nv 5) as (Hnd & Hle & Heq).
  rewrite soma_do_ranking_linhas, length_map, map_map.
  split; [exact Hlen|]. split; [exact Hnd|]. split; [|split; assumption].
  apply Forall_forall. intros e He.
  apply list_elem_of_fmap in He. destruct He as ([v m] & -> & He).
  destruct (Hin v m He) as [Hv ->]. simpl.
  pose proof (proj2 (ocorrencias_pos v nv) Hv) as Hpos.
  apply elem_of_valores_nao_vazios in Hv. destruct Hv as [_ Hv].
  split; [exact Hv|].
  split; [now apply ocorrencias_valores_nao_vazios|lia].
Qed.

(** X6.  [imprimir_relatorio] needs every name of the header to be a key
    of the dict: then it returns a report with one block per name, in
    header order; with a name missing it raises [KeyError]. *)
Theorem imprimir_relatorio_chaves (nome : string) (total : nat)
    (cabecalho : list string) (dados : gmap string (list string)) :
  (Forall (fun col => is_Some (dados !! col)) cabecalho ->
     exists r,
       imprimir_relatorio max_str_digits nome total cabecalho dados = Retorna r
       /\ map fst (colunas r) = cabecalho
       /\ total_linhas r = total /\ total_colunas r = length cabecalho)
  /\ (~ Forall (fun col => is_Some (dados !! col)) cabecalho ->
      imprimir_relatorio max_str_digits nome total cabecalho dados =
      Levanta KeyError).
Proof.
  unfold imprimir_relatorio.
  set (f := fun coluna : string =>
              match dados !! coluna with
              | Some valores_coluna =>
                  let* b := bloco_coluna max_str_digits valores_coluna in
                  Retorna (coluna, b)
              | None => Levanta KeyError
              end).
  assert (Hf : (Forall (fun col => is_Some (dados !! col)) cabecalho ->
                exists bs, para_cada f cabecalho = Retorna bs
                           /\ map fst bs = cabecalho)
               /\ (~ Forall (fun col => is_Some (dados !! col)) cabecalho ->
                   para_cada f cabecalho = Levanta KeyError)).
  { induction cabecalho as [|col r [IHs IHn]].
    - split; [intros _; exists []; auto|].
      intros Hn. exfalso. apply Hn. constructor.
    - cbn [para_cada]. unfold f at 1 3.
      destruct (dados !! col) as [valores|] eqn:Hcol.
      + rewrite (bloco_coluna_bloco_de max_str_digits valores). cbn [liga].
        split.
        * intros Hall. inversion Hall as [|? ? _ Hr]; subst.
          destruct (IHs Hr) as (bs & -> & Hbs). cbn [liga].
          eexists. split; [reflexivity|]. simpl. now rewrite Hbs.
        * intros Hn. rewrite IHn; [reflexivity|].
          intros Hr. apply Hn. constructor; [eauto|assumption].
      + split; [|reflexivity]. intros Hall.
        inversion Hall as [|? ? [x Hx] _]; subst. congruence. }
  destruct Hf as [Hs Hn]. split.
  - intros Hall. destruct (Hs Hall) as (bs & -> & Hbs). cbn [liga].
    eexists. split; [reflexivity|]. simpl. auto.
  - intros Hall. now rewrite (Hn Hall).
Qed.

End MaisRelatorio.

(** ** More on trimming *)

Lemma lstrip_nil l :
  lstrip l = [] <-> Forall (fun c => Py_UNICODE_ISSPACE c = true) l.
Proof.
  induction l as [|c r IH]; simpl; [split; [constructor|reflexivity]|].
  destruct (Py_UNICODE_ISSPACE c) eqn:Hc.
  - rewrite IH. split; [now constructor|]. intros H. now inversion H.
  - split; [discriminate|]. intros H. inversion H. congruence.
Qed.

Lemma lstrip_id u :
  match u with [] => True | c :: _ => Py_UNICODE_ISSPACE c = false end ->
  lstrip u = u.
Proof. destruct u as [|c r]; simpl; [reflexivity|]. now intros ->. Qed.

Lemma aparado_id u : aparado u -> rstrip (lstrip u) = u.
Proof.
  intros [Hini Hfim]. rewrite (lstrip_id u Hini). unfold rstrip.
  rewrite (lstrip_id (rev u) Hfim). apply rev_involutive.
Qed.

Lemma list_ascii_strip (s : string) :
  list_ascii_of_string (strip s) = rstrip (lstrip (list_ascii_of_string s)).
Proof. apply list_ascii_of_string_of_list_ascii. Qed.

(** Trimming a trimmed string changes nothing. *)
Lemma strip_strip (s : string) : strip (strip s) = strip s.
Proof.
  unfold strip at 1. rewrite list_ascii_strip.
  now rewrite (aparado_id _ (aparado_strip _)).
Qed.

Lemma strip_vazio (s : string) :
  strip s = EmptyString <->
  Forall (fun c => Py_UNICODE_ISSPACE c = true) (list_ascii_of_string s).
Proof.
  rewrite <- lstrip_nil. set (l := list_ascii_of_string s).
  assert (Hs : strip s = EmptyString <-> rstrip (lstrip l) = []).
  { split.
    - intros H. apply (f_equal list_ascii_of_string) in H.
      now rewrite list_ascii_strip in H.
    - intros H. unfold strip. fold l. now rewrite H. }
  rewrite Hs. pose proof (lstrip_cabeca l) as Hc.
  destruct (lstrip l) as [|c r]; [tauto|].
  rewrite (rstrip_cons c r Hc). split; discriminate.
Qed.

(** ** More on the ingestion loop *)

Section MaisIngestao.
Implicit Types (cabecalho linha : list string) (linhas : list (list string)).

Lemma processa_linhas_app cabecalho linhas1 : forall estado linhas2,
  processa_linhas cabecalho estado (linhas1 ++ linhas2) =
  let* e := processa_linhas cabecalho estado linhas1 in
  processa_linhas cabecalho e linhas2.
Proof.
  induction linhas1 as [|linha r IH]; intros estado linhas2;
    [reflexivity|].
  cbn [app processa_linhas].
  destruct (processa_linha cabecalho estado linha) as [e|x]; cbn [liga];
    [apply IH|reflexivity].
Qed.

Lemma bem_formadas_app cabecalho linhas1 linhas2 :
  bem_formadas cabecalho (linhas1 ++ linhas2) =
  (bem_formadas cabecalho linhas1 ++ bem_formadas cabecalho linhas2)%list.
Proof. unfold bem_formadas. apply List.filter_app. Qed.

Lemma coluna_lida_app col cabecalho linhas1 linhas2 :
  coluna_lida col cabecalho (linhas1 ++ linhas2) =
  (coluna_lida col cabecalho linhas1 ++ coluna_lida col cabecalho linhas2)%list.
Proof.
  unfold coluna_lida. now rewrite bem_formadas_app, map_app, concat_app.
Qed.

Lemma bem_formadas_idem cabecalho linhas :
  bem_formadas cabecalho (bem_formadas cabecalho linhas) =
  bem_formadas cabecalho linhas.
Proof.
  unfold bem_formadas. induction linhas as [|linha r IH]; [reflexivity|].
  simpl. destruct (negb (malformada (length cabecalho) linha)) eqn:Hm;
    simpl; [rewrite Hm, IH; reflexivity|exact IH].
Qed.

Lemma celulas_mesmo_aparo col cabecalho : forall linha linha',
  Forall2 (fun a b => strip a = strip b) linha linha' ->
  celulas col cabecalho linha = celulas col cabecalho linha'.
Proof.
  induction cabecalho as [|c r IH]; intros linha linha' Hll.
  - reflexivity.
  - destruct Hll as [|a b linha linha' Hab Hll];
      [now rewrite !celulas_nil|].
    rewrite !celulas_cons, Hab, (IH _ _ Hll). reflexivity.
Qed.

Lemma coluna_lida_mesmo_aparo col cabecalho linhas linhas' :
  Forall2 (Forall2 (fun a b => strip a = strip b)) linhas linhas' ->
  coluna_lida col cabecalho linhas = coluna_lida col cabecalho linhas'.
Proof.
  induction 1 as [|linha linha' r r' Hll _ IH]; [reflexivity|].
  change (linha :: r) with ([linha] ++ r)%list.
  change (linha' :: r') with ([linha'] ++ r')%list.
  rewrite !coluna_lida_app, IH. f_equal.
  unfold coluna_lida, bem_formadas, malformada. simpl.
  rewrite (Forall2_length _ _ _ Hll).
  destruct (Nat.eqb (length linha') (length cabecalho)); simpl;
    [|reflexivity].
  now rewrite (celulas_mesmo_aparo col cabecalho _ _ Hll).
Qed.

Lemma elem_of_celulas v col cabecalho linha :
  v ∈ celulas col cabecalho linha -> exists x, v = strip x.
Proof.
  unfold celulas. intros Hin. apply list_elem_of_fmap in Hin.
  destruct Hin as (p & -> & _). eauto.
Qed.

Lemma elem_of_coluna_lida v col cabecalho linhas :
  v ∈ coluna_lida col cabecalho linhas -> exists x, v = strip x.
Proof.
  unfold coluna_lida. intros Hin. apply list_elem_of_In, in_concat in Hin.
  destruct Hin as (l & Hl & Hv). apply in_map_iff in Hl.
  destruct Hl as (linha & <- & _).
  eapply elem_of_celulas, list_elem_of_In, Hv.
Qed.

(** X7.  Reading goes on where it stopped: the rows in two parts, the
    second from the state the first left, give the state of reading them in
    one go; and the second part only appends to the columns, each keeping
    what it had. *)
Theorem ingestao_por_partes cabecalho linhas1 linhas2 :
  exists d1 d2,
    processa_linhas cabecalho (0, dados_iniciais cabecalho) linhas1 =
      Retorna (length linhas1, d1)
    /\ processa_linhas cabecalho (length linhas1, d1) linhas2 =
      Retorna (length linhas1 + length linhas2, d2)
    /\ processa_linhas cabecalho (0, dados_iniciais cabecalho)
         (linhas1 ++ linhas2) =
      Retorna (length linhas1 + length linhas2, d2)
    /\ forall col,
         d2 !! col =
         (fun v => (v ++ coluna_lida col cabecalho linhas2)%list) <$> d1 !! col.
Proof.
  destruct (ingestao cabecalho linhas1) as (d1 & Hrun1 & Hd1).
  destruct (processa_linhas_lookup cabecalho linhas2 (length linhas1) d1)
    as (d2 & Hrun2 & Hd2).
  { intros col Hcol. rewrite Hd1, decide_True by assumption. eauto. }
  exists d1, d2. split; [exact Hrun1|]. split; [exact Hrun2|].
  split; [|exact Hd2].
  rewrite processa_linhas_app, Hrun1. exact Hrun2.
Qed.

(** X8.  Malformed rows change nothing but the row count: the file without
    them gives the same blocks, column by column. *)
Theorem malformadas_sem_efeito (max_str_digits : nat) (caminho : string)
    cabecalho linhas :
  exists r r',
    analisar_csv max_str_digits caminho (Some (cabecalho :: linhas)) =
      ([Analise r], Retorna tt)
    /\ analisar_csv max_str_digits caminho
         (Some (cabecalho :: bem_formadas cabecalho linhas)) =
      ([Analise r'], Retorna tt)
    /\ colunas r' = colunas r
    /\ total_colunas r' = total_colunas r
    /\ total_linhas r = length linhas
    /\ total_linhas r' = length (bem_formadas cabecalho linhas).
Proof.
  do 2 eexists. rewrite !analisar_csv_com_cabecalho.
  split; [reflexivity|]. split; [reflexivity|]. cbn [colunas total_colunas total_linhas].
  split; [|auto]. apply map_ext. intros col.
  unfold coluna_lida. now rewrite bem_formadas_idem.
Qed.

(** X9.  Every value kept in a column is trimmed: it has no space at
    either end, and trimming it again gives it back. *)
Theorem valores_guardados_aparados cabecalho linhas
    (n : nat) (dados : gmap string (list string))
    (col : string) (valores : list string) (v : string) :
  processa_linhas cabecalho (0, dados_iniciais cabecalho) linhas =
    Retorna (n, dados) ->
  dados !! col = Some valores ->
  v ∈ valores ->
  strip v = v /\ aparado (list_ascii_of_string v).
Proof.
  intros Hrun Hcol Hv.
  destruct (ingestao cabecalho linhas) as (dados' & Hrun' & Hd).
  rewrite Hrun in Hrun'. inversion Hrun'; subst dados'.
  rewrite Hd in Hcol. destruct (decide (col ∈ cabecalho)); [|discriminate].
  inversion Hcol; subst valores.
  destruct (elem_of_coluna_lida _ _ _ _ Hv) as [x ->].
  split; [apply strip_strip|]. rewrite list_ascii_strip. apply aparado_strip.
Qed.

(** X10.  Space around the fields does not count: two files with the same
    header whose rows have, field by field, the same trimmed text give the
    same output. *)
Theorem espacos_em_volta_sem_efeito (max_str_digits : nat) (caminho : string)
    cabecalho linhas linhas' :
  Forall2 (Forall2 (fun a b => strip a = strip b)) linhas linhas' ->
  analisar_csv max_str_digits caminho (Some (cabecalho :: linhas)) =
  analisar_csv max_str_digits caminho (Some (cabecalho :: linhas')).
Proof.
  intros Hll. rewrite !analisar_csv_com_cabecalho.
  rewrite (Forall2_length _ _ _ Hll). do 4 f_equal.
  apply map_ext. intros col.
  now rewrite (coluna_lida_mesmo_aparo col cabecalho _ _ Hll).
Qed.

(** X11.  A field counts as empty exactly when it holds nothing but
    spaces (or nothing at all). *)
Theorem celula_vazia_sse_espacos (max_str_digits : nat) (valor : string) :
  inferir_tipo_dado max_str_digits (strip valor) = Vazio
  <-> Forall (fun c => Py_UNICODE_ISSPACE c = true)
        (list_ascii_of_string valor).
Proof. now rewrite inferir_tipo_dado_vazio, strip_vazio. Qed.

End MaisIngestao.

(** ** The entry point *)

Lemma list_ascii_app (a b : string) :
  list_ascii_of_string (a ++ b) =
  (list_ascii_of_string a ++ list_ascii_of_string b)%list.
Proof. induction a as [|c a IH]; simpl; [reflexivity|now rewrite IH]. Qed.

Lemma string_of_list_ascii_app (a b : list ascii) :
  string_of_list_ascii (a ++ b) =
  (string_of_list_ascii a ++ string_of_list_ascii b)%string.
Proof. induction a as [|c a IH]; simpl; [reflexivity|now rewrite IH]. Qed.

(** On a character whose small letter is ASCII, [str.lower] and the C
    macro agree. *)
Lemma lower_char_TOLOWER (c : ascii) :
  (cod (lower_char c) <? 128)%N = true -> Py_TOLOWER c = lower_char c.
Proof. por_caracter c. Qed.

Lemma TOLOWER_lower_char (c : ascii) :
  (cod (Py_TOLOWER c) <? 128)%N = true -> lower_char c = Py_TOLOWER c.
Proof. por_caracter c. Qed.

Lemma map_lower_char_ascii (l t : list ascii) :
  Forall (fun x => (cod x <? 128)%N = true) t ->
  map lower_char l = t <-> map Py_TOLOWER l = t.
Proof.
  intros Ht. revert l. induction Ht as [|x t Hx _ IH]; intros [|c l]; simpl;
    try (split; discriminate); [tauto|].
  split; intros H; injection H as Hc Hl; subst x.
  - now rewrite (lower_char_TOLOWER c Hx), (proj1 (IH l) Hl).
  - now rewrite (TOLOWER_lower_char c Hx), (proj2 (IH l) Hl).
Qed.

Lemma list_ascii_lower (s : string) :
  list_ascii_of_string (lower s) = map lower_char (list_ascii_of_string s).
Proof. apply list_ascii_of_string_of_list_ascii. Qed.

(** X12.  The test of line 130 accepts a path exactly when it ends in
    .csv written in any mix of capitals and small letters; what comes before
    the extension does not matter, and may be nothing. *)
Theorem extensao_csv (caminho : string) :
  endswith (lower caminho) ".csv" = true
  <-> exists base ext,
        caminho = (base ++ ext)%string /\ minusculas ext = ".csv".
Proof.
  unfold endswith. rewrite list_ascii_lower, andb_true_iff, Nat.leb_le,
    bool_decide_eq_true, length_map.
  set (l := list_ascii_of_string caminho).
  change (length (list_ascii_of_string ".csv")) with 4.
  assert (Hcsv : Forall (fun x => (cod x <? 128)%N = true)
                   (list_ascii_of_string ".csv"))
    by (repeat constructor).
  split.
  - intros [Hlen Hdrop].
    rewrite skipn_map in Hdrop.
    apply (map_lower_char_ascii _ _ Hcsv) in Hdrop.
    exists (string_of_list_ascii (take (length l - 4) l)),
           (string_of_list_ascii (drop (length l - 4) l)).
    split.
    + rewrite <- string_of_list_ascii_app, take_drop. unfold l.
      now rewrite string_of_list_ascii_of_string.
    + unfold minusculas.
      now rewrite list_ascii_of_string_of_list_ascii, Hdrop.
  - intros (base & ext & -> & Hext).
    apply (f_equal list_ascii_of_string) in Hext. unfold minusculas in Hext.
    rewrite list_ascii_of_string_of_list_ascii in Hext.
    assert (Hl4 : length (list_ascii_of_string ext) = 4)
      by (rewrite <- (length_map Py_TOLOWER), Hext; reflexivity).
    apply (map_lower_char_ascii _ _ Hcsv) in Hext.
    unfold l. rewrite list_ascii_app, length_app, Hl4.
    split; [lia|].
    replace (length (list_ascii_of_string base) + 4 - 4)
      with (length (list_ascii_of_string base)) by lia.
    rewrite map_app, drop_app_length'; [exact Hext|now rewrite length_map].
Qed.


(** ** More on the type inferrer *)

Lemma skip_zeros_app ds x r :
  Ascii.eqb x "0" = false ->
  skip_zeros (ds ++ x :: r) = (skip_zeros ds ++ x :: r)%list.
Proof.
  intros Hx. induction ds as [|c ds IH]; simpl; [now rewrite Hx|].
  destruct (Ascii.eqb c "0"); [exact IH|reflexivity].
Qed.

Lemma skip_digits_app ds x r :
  Forall (fun c => Py_ISDIGIT c = true) ds -> Py_ISDIGIT x = false ->
  skip_digits (ds ++ x :: r) = x :: r.
Proof.
  intros Hds Hx. induction Hds as [|c ds Hc _ IH]; simpl; [now rewrite Hx|].
  now rewrite Hc.
Qed.

Lemma skip_digits_todos ds :
  Forall (fun c => Py_ISDIGIT c = true) ds -> skip_digits ds = [].
Proof. induction 1 as [|c ds Hc _ IH]; simpl; [reflexivity|now rewrite Hc]. Qed.

Lemma skip_zeros_digitos ds :
  Forall (fun c => Py_ISDIGIT c = true) ds ->
  Forall (fun c => Py_ISDIGIT c = true) (skip_zeros ds).
Proof.
  induction 1 as [|c ds Hc Hds IH]; simpl; [constructor|].
  destruct (Ascii.eqb c "0"); [exact IH|now constructor].
Qed.

Lemma length_skip_zeros ds : length (skip_zeros ds) <= length ds.
Proof.
  induction ds as [|c ds IH]; simpl; [lia|].
  destruct (Ascii.eqb c "0"); simpl; lia.
Qed.

Lemma length_nil_inv {A} (l : list A) : length l = 0 -> l = [].
Proof. now destruct l. Qed.

Lemma dg_strtod_decimal ds1 ds2 :
  Forall (fun c => Py_ISDIGIT c = true) ds1 ->
  Forall (fun c => Py_ISDIGIT c = true) ds2 ->
  (ds1 ++ ds2)%list <> [] ->
  forall s00, skip_sign s00 = (ds1 ++ "."%char :: ds2)%list ->
  dg_strtod s00 = [].
Proof.
  intros H1 H2 Hne s00 Hs. unfold dg_strtod. rewrite Hs.
  rewrite (skip_zeros_app ds1 "." ds2 eq_refl).
  rewrite (skip_digits_app _ "." ds2 (skip_zeros_digitos _ H1) eq_refl).
  cbv zeta. rewrite !length_app. cbn [length].
  pose proof (length_skip_zeros ds1) as Hz1.
  pose proof (length_skip_zeros ds2) as Hz2.
  replace (length (skip_zeros ds1) + S (length ds2) - S (length ds2))
    with (length (skip_zeros ds1)) by lia.
  destruct (Nat.eqb_spec (length (skip_zeros ds1)) 0) as [Hz|Hz].
  - rewrite (skip_digits_todos _ (skip_zeros_digitos _ H2)), Hz.
    cbn [length]. rewrite Nat.sub_0_r, Nat.add_0_l.
    match goal with |- (if ?b then _ else _) = _ => destruct b eqn:E end;
      [exfalso|reflexivity].
    rewrite andb_true_iff, negb_true_iff, orb_false_iff, !negb_false_iff,
      !Nat.eqb_eq in E.
    destruct E as (Hz2' & Hl1 & Hl2). apply Hne.
    assert (Hd1 : length ds1 = 0) by lia.
    assert (Hd2 : length ds2 = 0) by lia.
    now rewrite (length_nil_inv ds1 Hd1), (length_nil_inv ds2 Hd2).
  - rewrite (skip_digits_todos _ H2). cbn [length].
    match goal with |- (if ?b then _ else _) = _ => destruct b eqn:E end;
      [exfalso|reflexivity].
    rewrite andb_true_iff, Nat.eqb_eq in E. lia.
Qed.

Lemma dg_strtod_digitos ds :
  Forall (fun c => Py_ISDIGIT c = true) ds -> ds <> [] ->
  forall s00, skip_sign s00 = ds -> dg_strtod s00 = [].
Proof.
  intros Hd Hne s00 Hs. unfold dg_strtod. rewrite Hs.
  rewrite (skip_digits_todos _ (skip_zeros_digitos _ Hd)).
  cbv zeta. cbn [length]. rewrite Nat.sub_0_r.
  pose proof (length_skip_zeros ds) as Hz.
  match goal with |- (if ?b then _ else _) = _ => destruct b eqn:E end;
    [exfalso|reflexivity].
  rewrite andb_true_iff, negb_true_iff, negb_false_iff, !Nat.eqb_eq in E.
  destruct E as [Hz0 Hl]. apply Hne, length_nil_inv. lia.
Qed.

Lemma skip_sign_literal sinal c r :
  e_sinal sinal -> Ascii.eqb c "+" || Ascii.eqb c "-" = false ->
  skip_sign (sinal ++ c :: r) = c :: r.
Proof.
  intros [->|[->| ->]] Hc; simpl; [now rewrite Hc|reflexivity|reflexivity].
Qed.

Lemma float_inner_aceita c r :
  Py_ISSPACE c = false ->
  match rev (c :: r) with
  | x :: _ => Py_ISSPACE x = false
  | [] => True
  end ->
  dg_strtod (c :: r) = [] ->
  float_from_string_inner (c :: r) = true.
Proof.
  intros Hc Hult Hdg. unfold float_from_string_inner.
  cbn [skip_space]. rewrite Hc. unfold ascii_strtod, cauda_em_branco.
  rewrite Hdg. cbn [length Nat.eqb].
  destruct (rev (c :: r)) as [|x l] eqn:Hrev.
  - apply (f_equal (@length ascii)) in Hrev. rewrite length_rev in Hrev.
    discriminate.
  - cbn [skip_space]. rewrite Hult, <- Hrev, length_rev. cbn [length].
    now rewrite Nat.sub_diag.
Qed.

Lemma sem_sublinhados_digito prev c r :
  Py_ISDIGIT c = true ->
  sem_sublinhados prev (c :: r) = option_map (cons c) (sem_sublinhados c r).
Proof.
  intros Hc. cbn [sem_sublinhados].
  rewrite (digito_nao_sublinhado c Hc), Hc. cbn [negb].
  now rewrite andb_false_r.
Qed.

Lemma sem_sublinhados_grupos corpo :
  grupos_de_digitos corpo ->
  forall prev, sem_sublinhados prev corpo = Some (List.filter Py_ISDIGIT corpo).
Proof.
  induction 1 as [c Hc|c r Hc _ IH|c r Hc _ IH]; intros prev;
    rewrite (sem_sublinhados_digito prev c _ Hc); cbn [List.filter];
    rewrite Hc.
  - cbn [sem_sublinhados]. now rewrite (digito_nao_sublinhado c Hc).
  - now rewrite IH.
  - cbn [sem_sublinhados]. change (e_sublinhado "_") with true.
    change (Py_ISDIGIT "_") with false. cbn iota.
    now rewrite Hc, IH.
Qed.

Lemma filter_digitos_sem_sublinhado l :
  Forall (fun c => Py_ISDIGIT c = true \/ c = "_"%char) l ->
  existsb e_sublinhado l = false ->
  List.filter Py_ISDIGIT l = l.
Proof.
  induction 1 as [|c l Hc _ IH]; simpl; [reflexivity|].
  rewrite orb_false_iff. intros [Hs Hl]. destruct Hc as [Hd| ->];
    [|discriminate]. now rewrite Hd, IH.
Qed.

Lemma numero_com_sublinhados sinal corpo (innerfunc : list ascii -> bool) :
  e_sinal sinal -> grupos_de_digitos corpo ->
  string_to_number_with_underscores (sinal ++ corpo) innerfunc =
  innerfunc (sinal ++ List.filter Py_ISDIGIT corpo)%list.
Proof.
  intros Hs Hg. unfold string_to_number_with_underscores.
  destruct (existsb e_sublinhado (sinal ++ corpo)) eqn:He.
  - assert (Hsem : sem_sublinhados zero (sinal ++ corpo) =
                   Some (sinal ++ List.filter Py_ISDIGIT corpo)%list).
    { destruct Hs as [->|[->| ->]]; cbn [app sem_sublinhados];
        [apply (sem_sublinhados_grupos _ Hg)| |];
        cbn; now rewrite (sem_sublinhados_grupos _ Hg). }
    now rewrite Hsem.
  - rewrite existsb_app, orb_false_iff in He. destruct He as [_ He].
    now rewrite (filter_digitos_sem_sublinhado _ (grupos_caracteres _ Hg) He).
Qed.

Lemma Transform_ascii u :
  Forall (fun c => (cod c <? 128)%N = true) u ->
  TransformDecimalAndSpaceToASCII u = u.
Proof.
  intros Hu. unfold TransformDecimalAndSpaceToASCII.
  replace (forallb _ u) with true; [reflexivity|].
  symmetry. apply forallb_forall. intros c Hc.
  rewrite Forall_forall in Hu. now apply Hu, list_elem_of_In.
Qed.

Lemma filter_digitos_grupos corpo :
  grupos_de_digitos corpo ->
  exists c r, List.filter Py_ISDIGIT corpo = c :: r
              /\ Forall (fun x => Py_ISDIGIT x = true) (c :: r).
Proof.
  intros Hg. destruct (grupos_cabeca _ Hg) as (c & r & -> & Hc).
  exists c, (List.filter Py_ISDIGIT r). cbn [List.filter]. rewrite Hc.
  split; [reflexivity|]. constructor; [exact Hc|].
  apply Forall_forall. intros x Hx.
  apply list_elem_of_In, filter_In in Hx. tauto.
Qed.

Lemma ultimo_digito (pre ds : list ascii) :
  ds <> [] -> Forall (fun x => Py_ISDIGIT x = true) ds ->
  match rev (pre ++ ds) with
  | x :: _ => Py_ISSPACE x = false
  | [] => True
  end.
Proof.
  intros Hne Hd. rewrite rev_app_distr.
  destruct ds as [|d ds _] using rev_ind; [contradiction|].
  rewrite rev_app_distr. simpl. apply Forall_app in Hd.
  destruct Hd as [_ Hd]. inversion Hd; subst. now apply digito_nao_espaco.
Qed.

Lemma float_aceita_literal sinal corpo :
  e_sinal sinal -> grupos_de_digitos corpo ->
  float_aceita (string_of_list_ascii (sinal ++ corpo)) = true.
Proof.
  intros Hs Hg. unfold float_aceita.
  rewrite list_ascii_of_string_of_list_ascii, Transform_ascii.
  2:{ apply Forall_app. split.
      - eapply Forall_impl; [apply (e_sinal_caracteres _ Hs)|].
        intros c Hc. apply Hc.
      - eapply Forall_impl; [apply (grupos_caracteres_ascii _ Hg)|].
        intros c Hc. apply Hc. }
  rewrite (numero_com_sublinhados _ _ _ Hs Hg).
  destruct (filter_digitos_grupos _ Hg) as (c & r & -> & Hd).
  assert (Hc : Py_ISDIGIT c = true) by (now inversion Hd).
  pose proof (ultimo_digito sinal (c :: r) ltac:(discriminate) Hd) as Hult.
  assert (Hdg : dg_strtod (sinal ++ c :: r) = []).
  { apply (dg_strtod_digitos (c :: r) Hd ltac:(discriminate)).
    apply skip_sign_literal; [exact Hs|now apply digito_nao_sinal]. }
  destruct Hs as [->|[->| ->]]; cbn [app] in *;
    apply float_inner_aceita; auto using digito_nao_espaco.
Qed.

Lemma digitos_caracteres ds :
  Forall (fun c => Py_ISDIGIT c = true) ds ->
  Forall (fun c => (cod c <? 128)%N = true /\ e_sublinhado c = false
                   /\ Py_ISSPACE c = false /\ c <> "."%char) ds.
Proof.
  intros Hd. eapply Forall_impl; [exact Hd|]. intros c Hc.
  split; [now apply digito_ascii|]. split; [now apply digito_nao_sublinhado|].
  split; [now apply digito_nao_espaco|]. intros ->. discriminate.
Qed.

Lemma ponto_fora_de_grupos corpo :
  grupos_de_digitos corpo -> "."%char ∉ corpo.
Proof.
  intros Hg Hin. apply grupos_caracteres in Hg. rewrite Forall_forall in Hg.
  destruct (Hg _ Hin); discriminate.
Qed.

Section Decimal.
Variable max_str_digits : nat.

Lemma int_recusa_ponto (u : list ascii) :
  "."%char ∈ u ->
  Forall (fun c => (cod c <? 128)%N = true) u ->
  PyLong_FromString max_str_digits (TransformDecimalAndSpaceToASCII u) = false.
Proof.
  intros Hin Hu. rewrite (Transform_ascii u Hu).
  destruct (PyLong_FromString max_str_digits u) eqn:Hok; [exfalso|reflexivity].
  destruct (PyLong_FromString_forma _ _ Hok)
    as (ws1 & sinal & corpo & ws2 & -> & Hws1 & Hs & Hg & Hws2 & _).
  rewrite !elem_of_app in Hin. destruct Hin as [Hin|[Hin|[Hin|Hin]]].
  - rewrite Forall_forall in Hws1. specialize (Hws1 _ Hin). discriminate.
  - destruct Hs as [->|[->| ->]]; [now apply elem_of_nil in Hin| |];
      apply list_elem_of_singleton in Hin; discriminate.
  - now apply (ponto_fora_de_grupos _ Hg).
  - rewrite Forall_forall in Hws2. specialize (Hws2 _ Hin). discriminate.
Qed.

Lemma decimal_forma (sinal ds1 ds2 : list ascii) :
  e_sinal sinal ->
  Forall (fun c => Py_ISDIGIT c = true) ds1 ->
  Forall (fun c => Py_ISDIGIT c = true) ds2 ->
  (ds1 ++ ds2)%list <> [] ->
  let u := (sinal ++ ds1 ++ "."%char :: ds2)%list in
  Forall (fun c => (cod c <? 128)%N = true) u
  /\ existsb e_sublinhado u = false
  /\ float_from_string_inner u = true.
Proof.
  intros Hs H1 H2 Hne u.
  pose proof (digitos_caracteres _ H1) as Hc1.
  pose proof (digitos_caracteres _ H2) as Hc2.
  pose proof (e_sinal_caracteres _ Hs) as Hcs.
  split; [|split].
  - unfold u. apply Forall_app. split.
    + eapply Forall_impl; [exact Hcs|]. intros c Hc. apply Hc.
    + apply Forall_app. split.
      * eapply Forall_impl; [exact Hc1|]. intros c Hc. apply Hc.
      * constructor; [reflexivity|].
        eapply Forall_impl; [exact Hc2|]. intros c Hc. apply Hc.
  - unfold u. rewrite !existsb_app. cbn [existsb].
    change (e_sublinhado ".") with false.
    assert (Hn : forall l, Forall (fun c => e_sublinhado c = false) l ->
                           existsb e_sublinhado l = false).
    { induction 1 as [|c l Hc _ IH]; simpl; [reflexivity|].
      now rewrite Hc, IH. }
    rewrite (Hn ds1), (Hn ds2).
    + destruct Hs as [->|[->| ->]]; reflexivity.
    + eapply Forall_impl; [exact Hc2|]. intros c Hc. apply Hc.
    + eapply Forall_impl; [exact Hc1|]. intros c Hc. apply Hc.
  - assert (Hult : match rev u with
                   | x :: _ => Py_ISSPACE x = false
                   | [] => True
                   end).
    { unfold u. rewrite !app_assoc.
      destruct ds2 as [|d ds2 _] using rev_ind.
      - rewrite rev_app_distr. reflexivity.
      - change ("."%char :: ds2 ++ [d])%list
          with (["."%char] ++ (ds2 ++ [d]))%list.
        rewrite !app_assoc, rev_app_distr. simpl.
        apply Forall_app in H2. destruct H2 as [_ Hd].
        inversion Hd; subst. now apply digito_nao_espaco. }
    assert (Hcab : exists c r, (ds1 ++ "."%char :: ds2)%list = c :: r
                     /\ Py_ISSPACE c = false
                     /\ Ascii.eqb c "+" || Ascii.eqb c "-" = false).
    { destruct H1 as [|c ds1 Hc _]; simpl; [eauto|].
      exists c, (ds1 ++ "."%char :: ds2)%list.
      split; [reflexivity|]. split; [now apply digito_nao_espaco|].
      now apply digito_nao_sinal. }
    destruct Hcab as (c & r & Hcr & Hsp & Hsg).
    assert (Hdg : dg_strtod u = []).
    { apply (dg_strtod_decimal ds1 ds2 H1 H2 Hne). unfold u.
      rewrite Hcr. now apply skip_sign_literal. }
    unfold u in *. rewrite Hcr in *.
    destruct Hs as [->|[->| ->]]; cbn [app] in *;
      apply float_inner_aceita; auto.
Qed.

(** X14.  A plain decimal number is a Float: an optional sign, digits, a
    point and digits, with at least one digit on one side of the point. *)
Theorem decimal_e_float (sinal ds1 ds2 : list ascii) :
  e_sinal sinal ->
  Forall (fun c => Py_ISDIGIT c = true) ds1 ->
  Forall (fun c => Py_ISDIGIT c = true) ds2 ->
  (ds1 ++ ds2)%list <> [] ->
  inferir_tipo_dado max_str_digits
    (string_of_list_ascii (sinal ++ ds1 ++ "."%char :: ds2)) = Float.
Proof.
  intros Hs H1 H2 Hne.
  destruct (decimal_forma sinal ds1 ds2 Hs H1 H2 Hne) as (Hascii & Hsub & Hin).
  unfold inferir_tipo_dado, int_aceita, float_aceita.
  rewrite list_ascii_of_string_of_list_ascii.
  rewrite int_recusa_ponto; [|rewrite !elem_of_app; right; right; now left|exact Hascii].
  rewrite (Transform_ascii _ Hascii).
  unfold string_to_number_with_underscores. rewrite Hsub, Hin.
  destruct (String.eqb_spec
              (string_of_list_ascii (sinal ++ ds1 ++ "."%char :: ds2))
              EmptyString) as [He|_]; [|reflexivity].
  apply (f_equal list_ascii_of_string) in He.
  rewrite list_ascii_of_string_of_list_ascii in He. simpl in He.
  destruct sinal, ds1; discriminate.
Qed.

(** X15.  A trimmed cell that is an integer literal is never Text: it is
    Int within the digit limit and Float beyond it, [float] taking, with
    its underscores, every literal [int] takes. *)
Theorem inteiro_nunca_string (valor : string) :
  literal_inteiro (strip valor) ->
  (dentro_do_limite max_str_digits (digitos (strip valor)) ->
     inferir_tipo_dado max_str_digits (strip valor) = Int)
  /\ (~ dentro_do_limite max_str_digits (digitos (strip valor)) ->
     inferir_tipo_dado max_str_digits (strip valor) = Float).
Proof.
  intros Hlit.
  pose proof (aparado_strip (list_ascii_of_string valor)) as Hap.
  pose proof (int_aparado max_str_digits _ Hap) as Hint.
  rewrite <- list_ascii_strip in Hint.
  assert (Hne : String.eqb (strip valor) EmptyString = false).
  { apply String.eqb_neq. intros He. destruct Hlit as (sinal & corpo & Hu & _ & Hg).
    rewrite He in Hu. destruct (grupos_cabeca _ Hg) as (c & r & -> & _).
    now destruct sinal. }
  unfold inferir_tipo_dado, int_aceita. rewrite Hne. split.
  - intros Hlim.
    replace (PyLong_FromString _ _) with true; [reflexivity|].
    symmetry. apply Hint. split; [exact Hlit|exact Hlim].
  - intros Hlim.
    destruct (PyLong_FromString _ _) eqn:Hok;
      [exfalso; apply Hlim; now apply Hint|].
    destruct Hlit as (sinal & corpo & Hu & Hs & Hg).
    assert (Hstr : strip valor = string_of_list_ascii (sinal ++ corpo)).
    { now rewrite <- Hu, string_of_list_ascii_of_string. }
    rewrite Hstr at 1. now rewrite (float_aceita_literal _ _ Hs Hg).
Qed.

End Decimal.

(** * Runs on concrete inputs

    The runs below are on an interpreter with the default digit limit. *)

(** C4 as stated fails: in the column abc, 1 the types Text and Integer
    each have one value; the fixed order would give Integer, the program
    reports Text, the type of the first value. *)
Lemma empate_contraexemplo :
  let valores := ["abc"; "1"] in
  let tipos := map (inferir_tipo_dado limite_padrao)
                 (valores_nao_vazios valores) in
  ocorrencias Int tipos = ocorrencias String_ tipos
  /\ predominante_por_precedencia tipos = Some Int
  /\ tipo_predominante limite_padrao valores = Retorna String_
  /\ tipo_predominante limite_padrao valores <> Retorna Int.
Proof. repeat split; try reflexivity. discriminate. Qed.

(** C5 as stated fails: on a source with no row the call raises nothing;
    it ends as any call that returns. *)
Lemma arquivo_sem_linhas_contraexemplo :
  ~ exists e,
      snd (analisar_csv limite_padrao "dados.csv" (Some [])) = Levanta e.
Proof. intros [e He]. discriminate He. Qed.


Lemma conservacao_de_contagens_witness :
  exists dados valores,
    processa_linhas ["x"; "y"] (0, dados_iniciais ["x"; "y"])
      [["1"; "2"]; ["3"]] =
      Retorna (2, dados)
    /\ dados !! "x" = Some valores
    /\ total_valores valores =
       valores_vazios valores + soma_valores (contagem_valores valores)
    /\ valores_vazios valores = ocorrencias EmptyString valores.
Proof.
  apply (conservacao_de_contagens ["x"; "y"] [["1"; "2"]; ["3"]] "x").
  constructor.
Defined.

Lemma linha_malformada_ignorada_witness :
  processa_linha ["x"; "y"] (1, dados_iniciais ["x"; "y"]) ["3"] =
  Retorna (2, dados_iniciais ["x"; "y"]).
Proof.
  apply (proj1 linha_malformada_ignorada ["x"; "y"] ["3"] 1).
  simpl. lia.
Defined.

Lemma desempate_por_primeira_ocorrencia_witness :
  let tipos := map (inferir_tipo_dado limite_padrao)
                 (valores_nao_vazios ["abc"; "1"; "x"; "2"]) in
  exists tipo,
    tipo_predominante limite_padrao ["abc"; "1"; "x"; "2"] = Retorna tipo
    /\ tipo ∈ tipos
    /\ forall outro,
         ocorrencias outro tipos <= ocorrencias tipo tipos
         /\ (ocorrencias outro tipos = ocorrencias tipo tipos ->
             outro <> tipo ->
             indice tipo tipos < indice outro tipos).
Proof.
  apply (desempate_por_primeira_ocorrencia limite_padrao
           ["abc"; "1"; "x"; "2"]).
  vm_compute. discriminate.
Defined.

Lemma ranking_deterministico_witness :
  "b" ∈ ["a"; "b"; "a"; "c"; "b"; "a"]
  /\ 2 = ocorrencias "b" ["a"; "b"; "a"; "c"; "b"; "a"].
Proof.
  apply (proj1 (proj2 (ranking_deterministico
                         ["a"; "b"; "a"; "c"; "b"; "a"] 5)) "b" 2).
  vm_compute. right. left.
Defined.


Lemma coluna_toda_vazia_witness :
  bloco_coluna limite_padrao [EmptyString; EmptyString] = Retorna TodosVazios.
Proof.
  apply (proj1 (coluna_toda_vazia limite_padrao) [EmptyString; EmptyString]).
  reflexivity.
Defined.

Lemma palavras_nao_finitas_witness :
  inferir_tipo_dado limite_padrao ("-" ++ "InFiNiTy") = Float.
Proof.
  apply (palavras_nao_finitas limite_padrao "-" "InFiNiTy").
  - right. right. reflexivity.
  - right. right. reflexivity.
Defined.

Lemma cabecalho_duplicado_witness :
  exists dados valores r,
    processa_linhas ["a"; "b"; "a"] (0, dados_iniciais ["a"; "b"; "a"])
      [["1"; "2"; "3"]; ["4"]; ["5"; "6"; " "]] =
      Retorna (3, dados)
    /\ dados !! "a" = Some valores
    /\ valores = coluna_lida "a" ["a"; "b"; "a"]
                   [["1"; "2"; "3"]; ["4"]; ["5"; "6"; " "]]
    /\ total_valores valores =
       2 * length (bem_formadas ["a"; "b"; "a"]
                     [["1"; "2"; "3"]; ["4"]; ["5"; "6"; " "]])
    /\ analisar_csv limite_padrao "dados.csv"
         (Some [["a"; "b"; "a"]; ["1"; "2"; "3"]; ["4"]; ["5"; "6"; " "]]) =
         ([Analise r], Retorna tt)
    /\ bloco_coluna limite_padrao valores =
         Retorna (bloco_de limite_padrao valores)
    /\ List.filter (fun e : string * bloco => bool_decide (fst e = "a"))
         (colunas r) =
       replicate 2 ("a", bloco_de limite_padrao valores).
Proof.
  apply (cabecalho_duplicado limite_padrao "dados.csv" ["a"; "b"; "a"]
           [["1"; "2"; "3"]; ["4"]; ["5"; "6"; " "]] "a" 2).
  - reflexivity.
  - lia.
Defined.

Lemma estatisticas_coerentes_witness :
  1 <= 2 /\ 2 <= 3 /\ 3 + 1 = 4
  /\ 4 = length ["a"; EmptyString; "b"; "a"]
  /\ 1 = ocorrencias EmptyString ["a"; EmptyString; "b"; "a"].
Proof.
  eapply (estatisticas_coerentes limite_padrao
            ["a"; EmptyString; "b"; "a"] 3 4 1 2).
  reflexivity.
Defined.

Lemma tipo_predominante_rotulos_witness :
  "INT" = "INT" \/ "INT" = "FLOAT" \/ "INT" = "STRING".
Proof.
  eapply (tipo_predominante_rotulos limite_padrao ["1"; "2"] 2 2 0 2 "INT").
  reflexivity.
Defined.

Lemma ranking_do_relatorio_witness :
  let valores := ["a"; EmptyString; "b"; "a"] in
  let mc := [("a", 2, "66.7"); ("b", 1, "33.3")] in
  length mc = Nat.min 5 2
  /\ NoDup (map (fun e => fst (fst e)) mc)
  /\ Forall (fun e => fst (fst e) <> EmptyString
                      /\ snd (fst e) = ocorrencias (fst (fst e)) valores
                      /\ 1 <= snd (fst e)) mc
  /\ soma_do_ranking mc <= 3
  /\ (2 <= 5 -> soma_do_ranking mc = 3).
Proof.
  intros valores mc.
  apply (ranking_do_relatorio limite_padrao valores 3 4 1 2 "STRING" mc).
  reflexivity.
Defined.

Lemma imprimir_relatorio_chaves_witness :
  imprimir_relatorio limite_padrao "dados.csv" 0 ["x"] ∅ = Levanta KeyError.
Proof.
  apply (proj2 (imprimir_relatorio_chaves limite_padrao "dados.csv" 0 ["x"] ∅)).
  intros H. inversion H as [|? ? [x Hx] _]. discriminate Hx.
Defined.

Lemma valores_guardados_aparados_witness :
  strip "a" = "a" /\ aparado (list_ascii_of_string "a").
Proof.
  eapply (valores_guardados_aparados ["x"] [[" a "]] _ _ "x" _ "a").
  - reflexivity.
  - reflexivity.
  - vm_compute. left.
Defined.

Lemma espacos_em_volta_sem_efeito_witness :
  analisar_csv limite_padrao "dados.csv" (Some [["x"; "y"]; [" a "; "b"]]) =
  analisar_csv limite_padrao "dados.csv" (Some [["x"; "y"]; ["a"; " b"]]).
Proof.
  apply (espacos_em_volta_sem_efeito limite_padrao "dados.csv" ["x"; "y"]
           [[" a "; "b"]] [["a"; " b"]]).
  repeat constructor.
Defined.

Lemma decimal_e_float_witness :
  inferir_tipo_dado limite_padrao "-42.0" = Float.
Proof.
  apply (decimal_e_float limite_padrao ["-"%char]
           (list_ascii_of_string "42") (list_ascii_of_string "0")).
  - right. right. reflexivity.
  - repeat constructor.
  - repeat constructor.
  - discriminate.
Defined.

Lemma inteiro_nunca_string_witness :
  inferir_tipo_dado limite_padrao (strip " 1_000 ") = Int.
Proof.
  apply (proj1 (inteiro_nunca_string limite_padrao " 1_000 "
                  (ex_intro _ []
                     (ex_intro _ (list_ascii_of_string "1_000")
                        (conj eq_refl
                           (conj (or_introl eq_refl)
                              (gd_sub "1" _ eq_refl
                                 (gd_mais "0" _ eq_refl
                                    (gd_mais "0" _ eq_refl
                                       (gd_um "0" eq_refl)))))))))).
  left. vm_compute. lia.
Defined.
